(** * csv_logger: the serial-to-CSV logging loop of bridge/csv_logger.py

    A shallow embedding of [log_data] and of the pieces of the Python runtime
    it calls: text as lists of Unicode code points, received lines as lists of
    bytes, the console, the output file and the two handles as a trace of
    effects in program order. *)

From Stdlib.Strings Require Import String Ascii Byte.
From Stdlib Require Import ZArith List Bool Lia.
Import ListNotations.
Open Scope Z_scope.

(** ** Text *)

Module Text.

(** A Python [str]: a sequence of code points. *)
Definition str := list Z.

(** An ASCII literal of the source as a [str]. *)
Fixpoint lit (s : string) : str :=
  match s with
  | EmptyString => []
  | String a r => Z.of_N (N_of_ascii a) :: lit r
  end.

Definition LF : Z := 10.
Definition COMMA : Z := 44.
Definition REPLACEMENT : Z := 0xFFFD.

(** [s.startswith(prefix)] *)
Fixpoint startswith (s prefix : str) {struct prefix} : bool :=
  match prefix with
  | [] => true
  | p :: prefix' =>
    match s with
    | [] => false
    | c :: s' => (c =? p) && startswith s' prefix'
    end
  end.

(** The code points [str.strip()] removes (the interpreter's
    [Py_UNICODE_ISSPACE]). *)
Definition isspace (c : Z) : bool :=
  ((0x09 <=? c) && (c <=? 0x0D)) || ((0x1C <=? c) && (c <=? 0x20))
  || (c =? 0x85) || (c =? 0xA0) || (c =? 0x1680)
  || ((0x2000 <=? c) && (c <=? 0x200A))
  || (c =? 0x2028) || (c =? 0x2029) || (c =? 0x202F) || (c =? 0x205F)
  || (c =? 0x3000).

Fixpoint lstrip (s : str) : str :=
  match s with
  | [] => []
  | c :: r => if isspace c then lstrip r else s
  end.

Definition rstrip (s : str) : str := rev (lstrip (rev s)).

(** [s.strip()] *)
Definition strip (s : str) : str := lstrip (rstrip s).

(** Decimal digits of a non-negative integer, most significant first; the
    fuel bounds the number of digits. *)
Fixpoint digits_of (fuel : nat) (n : Z) : str :=
  match fuel with
  | O => []
  | S f => (if n <? 10 then [] else digits_of f (n / 10)) ++ [48 + n mod 10]
  end.

Definition decimal (n : Z) : str := digits_of (S (Z.to_nat (Z.log2 n))) n.

(** [str(n)] for a Python [int]. *)
Definition str_of_int (n : Z) : str :=
  if n <? 0 then 45 :: decimal (- n) else decimal n.

(** [s.rjust(width, fill)]: pad on the left up to [width]. *)
Definition rjust (width : nat) (fill : Z) (s : str) : str :=
  repeat fill (width - length s) ++ s.

(** A zero-padded numeric field of [strftime]. *)
Definition zero_padded (width : nat) (n : Z) : str :=
  rjust width 48 (str_of_int n).

(** [format(n, "4d")]: right-aligned in a field of at least four columns,
    padded with spaces. *)
Definition format_4d (n : Z) : str := rjust 4 32 (str_of_int n).

(** [s[:-3]] *)
Definition drop_last3 (s : str) : str := firstn (length s - 3) s.

Definition is_ascii_digit (c : Z) : bool := (48 <=? c) && (c <=? 57).

End Text.
Import Text.

(** ** Bytes and the UTF-8 codec *)

Module Codec.

Definition bytes := list byte.

Definition byte_val (b : byte) : Z := Z.of_N (Byte.to_N b).

(** The [errors] argument of [bytes.decode]. *)
Inductive errors_mode := Strict | Replace.

Definition is_continuation (ch : Z) : bool := (0x80 <=? ch) && (ch <? 0xC0).

(** One decoded code point in front of the rest of the text. *)
Definition ok (c : Z) (rest : option str) : option str :=
  option_map (cons c) rest.

(** A malformed sequence: [Strict] raises [UnicodeDecodeError] ([None]),
    [Replace] puts U+FFFD in its place and goes on. *)
Definition bad (errors : errors_mode) (rest : option str) : option str :=
  match errors with
  | Strict => None
  | Replace => option_map (cons REPLACEMENT) rest
  end.

(** [bs.decode('utf-8', errors)], as the interpreter's decoder does it: the
    shortest form only, no surrogates, nothing above U+10FFFF; a malformed
    sequence ends at the first byte that cannot continue it, and decoding
    resumes at that byte. *)
Fixpoint utf8_decode (errors : errors_mode) (bs : bytes) {struct bs}
  : option str :=
  match bs with
  | [] => Some []
  | b :: r =>
    let ch := byte_val b in
    if ch <? 0x80 then ok ch (utf8_decode errors r)
    else if ch <? 0xC2 then bad errors (utf8_decode errors r)
    else if ch <? 0xE0 then
      match r with
      | [] => bad errors (Some [])
      | b2 :: r2 =>
        let ch2 := byte_val b2 in
        if is_continuation ch2
        then ok (Z.shiftl ch 6 + ch2 - (Z.shiftl 0xC0 6 + 0x80))
                (utf8_decode errors r2)
        else bad errors (utf8_decode errors r)
      end
    else if ch <? 0xF0 then
      match r with
      | [] => bad errors (Some [])
      | b2 :: r2 =>
        let ch2 := byte_val b2 in
        if negb (is_continuation ch2)
           || (if ch2 <? 0xA0 then ch =? 0xE0 else ch =? 0xED)
        then bad errors (utf8_decode errors r)
        else
          match r2 with
          | [] => bad errors (Some [])
          | b3 :: r3 =>
            let ch3 := byte_val b3 in
            if is_continuation ch3
            then ok (Z.shiftl ch 12 + Z.shiftl ch2 6 + ch3
                     - (Z.shiftl 0xE0 12 + Z.shiftl 0x80 6 + 0x80))
                    (utf8_decode errors r3)
            else bad errors (utf8_decode errors r2)
          end
      end
    else if ch <? 0xF5 then
      match r with
      | [] => bad errors (Some [])
      | b2 :: r2 =>
        let ch2 := byte_val b2 in
        if negb (is_continuation ch2)
           || (if ch2 <? 0x90 then ch =? 0xF0 else ch =? 0xF4)
        then bad errors (utf8_decode errors r)
        else
          match r2 with
          | [] => bad errors (Some [])
          | b3 :: r3 =>
            let ch3 := byte_val b3 in
            if negb (is_continuation ch3)
            then bad errors (utf8_decode errors r2)
            else
              match r3 with
              | [] => bad errors (Some [])
              | b4 :: r4 =>
                let ch4 := byte_val b4 in
                if is_continuation ch4
                then ok (Z.shiftl ch 18 + Z.shiftl ch2 12 + Z.shiftl ch3 6
                         + ch4
                         - (Z.shiftl 0xF0 18 + Z.shiftl 0x80 12
                            + Z.shiftl 0x80 6 + 0x80))
                        (utf8_decode errors r4)
                else bad errors (utf8_decode errors r3)
              end
          end
      end
    else bad errors (utf8_decode errors r)
  end.

(** The bytes are well-formed UTF-8: strict decoding does not raise. *)
Definition well_formed (bs : bytes) : bool :=
  match utf8_decode Strict bs with Some _ => true | None => false end.

End Codec.
Import Codec.

(** ** The wall clock *)

(** What [datetime.now()] returns. *)
Record datetime := {
  year : Z; month : Z; day : Z;
  hour : Z; minute : Z; second : Z; microsecond : Z
}.

(** The ranges a [datetime] object keeps its fields in. *)
Definition valid_datetime (dt : datetime) : Prop :=
  1 <= year dt <= 9999 /\ 1 <= month dt <= 12 /\ 1 <= day dt <= 31
  /\ 0 <= hour dt <= 23 /\ 0 <= minute dt <= 59 /\ 0 <= second dt <= 59
  /\ 0 <= microsecond dt <= 999999.

(** [dt.strftime('%Y-%m-%d %H:%M:%S.%f')] *)
Definition strftime (dt : datetime) : str :=
  zero_padded 4 (year dt) ++ lit "-" ++ zero_padded 2 (month dt) ++ lit "-"
  ++ zero_padded 2 (day dt) ++ lit " " ++ zero_padded 2 (hour dt) ++ lit ":"
  ++ zero_padded 2 (minute dt) ++ lit ":" ++ zero_padded 2 (second dt)
  ++ lit "." ++ zero_padded 6 (microsecond dt).

(** [datetime.now().strftime('%Y-%m-%d %H:%M:%S.%f')[:-3]] *)
Definition timestamp_of (now : datetime) : str := drop_last3 (strftime now).

(** ** Effects and events *)

(** What the program does to the outside, in program order: [Print s] is
    [print(s)], [FileWrite s] is [csv_file.write(s)]. *)
Inductive effect :=
| SerialOpen
| FileOpen
| Print (s : str)
| FileWrite (s : str)
| FileClose
| SerialClose.

(** What a pass of [while True] meets: no pending input ([ser.in_waiting]
    is 0), a line ([ser.readline()] returns [raw]; the clock reads [now]),
    Ctrl+C, or a failing serial port.  An interrupt is taken between two
    passes, and a write to the open file succeeds. *)
Inductive event :=
| NoInput
| Readline (raw : bytes) (now : datetime)
| KeyboardInterrupt
| SerialException (e : str).

(** How opening a port or a file ends; [OpenFailed e] carries the text of
    the exception. *)
Inductive open_result := Opened | OpenFailed (e : str).

(** A run that is still in its loop when the events end, or one that
    returned. *)
Inductive outcome (A : Type) := Polling (a : A) | Returned (a : A).
Arguments Polling {A} a.
Arguments Returned {A} a.

(** The locals of [log_data] and everything done so far. *)
Record logger := {
  header_written : bool;
  line_count : Z;
  trace : list effect
}.

Definition emit (st : logger) (es : list effect) : logger :=
  {| header_written := header_written st;
     line_count := line_count st;
     trace := trace st ++ es |}.

(** The records written to the output file, in order. *)
Fixpoint file_writes (tr : list effect) : list str :=
  match tr with
  | [] => []
  | FileWrite s :: tr' => s :: file_writes tr'
  | _ :: tr' => file_writes tr'
  end.

(** The lines printed to the console, in order. *)
Fixpoint console (tr : list effect) : list str :=
  match tr with
  | [] => []
  | Print s :: tr' => s :: console tr'
  | _ :: tr' => console tr'
  end.

Definition is_file_close (e : effect) : bool :=
  match e with FileClose => true | _ => false end.

Definition is_serial_close (e : effect) : bool :=
  match e with SerialClose => true | _ => false end.

Definition count (p : effect -> bool) (tr : list effect) : nat :=
  length (filter p tr).

(** ** Console messages *)

Definition CHECK : Z := 0x2713.
Definition CROSS : Z := 0x2717.
Definition WARNING : Z := 0x26A0.

Definition msg_connected (port : str) (baud : Z) : str :=
  CHECK :: lit " Connected to " ++ port ++ lit " at " ++ str_of_int baud
  ++ lit " baud".
Definition msg_open_error (port e : str) : str :=
  CROSS :: lit " Error opening " ++ port ++ lit ": " ++ e.
Definition msg_logging_to (output_file : str) : str :=
  CHECK :: lit " Logging to: " ++ output_file.
Definition msg_file_error (e : str) : str :=
  CROSS :: lit " Error opening output file: " ++ e.
Definition msg_starting : str := LF :: lit "Starting data capture...".
Definition msg_press : str := lit "Press Ctrl+C to stop" ++ [LF].
Definition msg_header (line : str) : str := lit "Header: real_time," ++ line.
Definition msg_data (n : Z) (timestamp line : str) : str :=
  lit "[" ++ format_4d n ++ lit "] " ++ timestamp ++ lit " | " ++ line.
Definition msg_unknown (line : str) : str := lit "? " ++ line.
Definition msg_decode_error : str :=
  WARNING :: lit " Decode error - skipping malformed data".
Definition msg_stopped (n : Z) : str :=
  LF :: LF :: CHECK :: lit " Stopped logging. Total lines: " ++ str_of_int n.
Definition msg_serial_error (e : str) : str :=
  LF :: CROSS :: lit " Serial port error: " ++ e.
Definition msg_closed : str := CHECK :: lit " Files closed".

(** ** The logger *)

Section Logger.

(** [str.isdigit] reads the digit property (Numeric_Type Digit or Decimal)
    from the interpreter's Unicode database; above ASCII that table is taken
    as given. *)
Variable unicode_digit : Z -> bool.

(** [c.isdigit()] for one code point. *)
Definition isdigit (c : Z) : bool :=
  if c <? 0x80 then is_ascii_digit c else unicode_digit c.

(** [line and line[0].isdigit() or line.startswith('-')] *)
Definition looks_like_data (line : str) : bool :=
  match line with
  | [] => false
  | c :: _ => isdigit c
  end
  || startswith line (lit "-").

(** The body of the loop from [if not line] on, for the decoded and
    trimmed [line]. *)
Definition process_text (st : logger) (now : datetime) (line : str) : logger :=
  match line with
  | [] => st
  | _ :: _ =>
    if startswith line (lit "#") then emit st [Print line]
    else if startswith line (lit "timestamp,") then
      if negb (header_written st) then
        {| header_written := true;
           line_count := line_count st;
           trace := trace st
                    ++ [FileWrite (lit "real_time," ++ line ++ [LF]);
                        Print (msg_header line)] |}
      else st
    else if looks_like_data line then
      let timestamp := timestamp_of now in
      let csv_line := timestamp ++ lit "," ++ line ++ [LF] in
      {| header_written := header_written st;
         line_count := line_count st + 1;
         trace := trace st
                  ++ [FileWrite csv_line;
                      Print (msg_data (line_count st + 1) timestamp line)] |}
    else emit st [Print (msg_unknown line)]
  end.

(** One received line: the inner [try] of the loop. *)
Definition process_line (st : logger) (now : datetime) (raw : bytes)
  : logger :=
  match utf8_decode Replace raw with
  | Some text => process_text st now (strip text)
  | None => emit st [Print msg_decode_error]
  end.

(** The [finally] block. *)
Definition cleanup (st : logger) : logger :=
  emit st [FileClose; SerialClose; Print msg_closed].

(** The [try] around [while True], with its handlers. *)
Fixpoint log_loop (st : logger) (evs : list event) : outcome logger :=
  match evs with
  | [] => Polling st
  | NoInput :: evs' => log_loop st evs'
  | Readline raw now :: evs' => log_loop (process_line st now raw) evs'
  | KeyboardInterrupt :: _ =>
    Returned (cleanup (emit st [Print (msg_stopped (line_count st))]))
  | SerialException e :: _ =>
    Returned (cleanup (emit st [Print (msg_serial_error e)]))
  end.

(** The locals as the loop finds them: [header_written = False],
    [line_count = 0]. *)
Definition start (tr : list effect) : logger :=
  {| header_written := false; line_count := 0; trace := tr |}.

Definition open_serial_port (port : str) (baud : Z) (r : open_result)
  : list effect * bool :=
  match r with
  | Opened => ([SerialOpen; Print (msg_connected port baud)], true)
  | OpenFailed e => ([Print (msg_open_error port e)], false)
  end.

(** [log_data(port, output_file, baud)], given how the two opens end and
    what the loop meets. *)
Definition log_data (port output_file : str) (baud : Z)
    (ser_result file_result : open_result) (evs : list event)
  : outcome (list effect) :=
  let '(t1, ser) := open_serial_port port baud ser_result in
  if negb ser then Returned t1
  else
    match file_result with
    | OpenFailed e => Returned (t1 ++ [Print (msg_file_error e); SerialClose])
    | Opened =>
      let t2 := t1 ++ [FileOpen; Print (msg_logging_to output_file);
                       Print msg_starting; Print msg_press] in
      match log_loop (start t2) evs with
      | Polling st => Polling (trace st)
      | Returned st => Returned (trace st)
      end
    end.

(** *** The specification's vocabulary *)

(** The four kinds of line of the specification, tried in its order. *)
Inductive line_class := Comment | HeaderLine | DataLine | UnknownLine.

Definition classify (line : str) : line_class :=
  if startswith line (lit "#") then Comment
  else if startswith line (lit "timestamp,") then HeaderLine
  else if looks_like_data line then DataLine
  else UnknownLine.

(** The received line as the loop classifies it: decoded and trimmed. *)
Definition trimmed (raw : bytes) : str :=
  match utf8_decode Replace raw with
  | Some text => strip text
  | None => []
  end.

Definition is_data_line (raw : bytes) : bool :=
  match classify (trimmed raw) with DataLine => true | _ => false end.

Definition is_header_line (raw : bytes) : bool :=
  match classify (trimmed raw) with HeaderLine => true | _ => false end.

Definition is_exit (ev : event) : bool :=
  match ev with
  | KeyboardInterrupt | SerialException _ => true
  | _ => false
  end.

(** An event that leaves the output file as it is: no input, or a line that
    is empty, a comment or unknown. *)
Definition is_quiet (ev : event) : bool :=
  match ev with
  | NoInput => true
  | Readline raw _ => negb (is_data_line raw) && negb (is_header_line raw)
  | _ => false
  end.


(** The lines the loop reads before it leaves. *)
Fixpoint lines_read (evs : list event) : list bytes :=
  match evs with
  | [] => []
  | NoInput :: evs' => lines_read evs'
  | Readline raw _ :: evs' => raw :: lines_read evs'
  | _ :: _ => []
  end.

Definition final {A : Type} (o : outcome A) : A :=
  match o with Polling a => a | Returned a => a end.

(** A record of the file without its line terminator. *)
Definition chomp (record : str) : str :=
  match rev record with
  | c :: r => if c =? LF then rev r else record
  | [] => []
  end.

(** What follows the first comma. *)
Fixpoint after_comma (s : str) : str :=
  match s with
  | [] => []
  | c :: r => if c =? COMMA then r else after_comma r
  end.

(** The part of a record after its first comma-delimited field. *)
Definition payload (record : str) : str := after_comma (chomp record).

Definition is_header_record (record : str) : bool :=
  startswith record (lit "real_time,").

(** One record on one line: a body without line feed, then one line feed. *)
Definition one_line (record : str) : Prop :=
  exists body, record = body ++ [LF] /\ ~ In LF body.

(** Every element that satisfies [p] is the last one. *)
Fixpoint only_last {A : Type} (p : A -> bool) (l : list A) : bool :=
  match l with
  | [] => true
  | x :: r => if p x then match r with [] => true | _ :: _ => false end
              else only_last p r
  end.

(** What [readline()] can return: bytes up to and including the first line
    feed, or fewer when the read times out. *)
Definition readline_shaped (raw : bytes) : bool :=
  only_last (fun b => byte_val b =? LF) raw.

Definition event_shaped (ev : event) : bool :=
  match ev with
  | Readline raw _ => readline_shaped raw
  | _ => true
  end.

(** [width] decimal digits of [n], the least significant last. *)
Fixpoint fixed (width : nat) (n : Z) : str :=
  match width with
  | O => []
  | S w => fixed w (n / 10) ++ [48 + n mod 10]
  end.

(** The format [YYYY-MM-DD HH:MM:SS.mmm] of the specification. *)
Definition iso_millis (dt : datetime) : str :=
  fixed 4 (year dt) ++ lit "-" ++ fixed 2 (month dt) ++ lit "-"
  ++ fixed 2 (day dt) ++ lit " " ++ fixed 2 (hour dt) ++ lit ":"
  ++ fixed 2 (minute dt) ++ lit ":" ++ fixed 2 (second dt) ++ lit "."
  ++ fixed 3 (microsecond dt / 1000).

(** The value a string of decimal digits denotes. *)
Definition value_of (s : str) : Z :=
  fold_left (fun acc c => 10 * acc + (c - 48)) s 0.

(** The characters a timestamp is made of: digits, [-], space, [:], [.]. *)
Definition is_stamp_char (c : Z) : bool :=
  is_ascii_digit c || (c =? 45) || (c =? 32) || (c =? 58) || (c =? 46).

(** The records one line adds to the file, given the header flag. *)
Definition records_for (hw : bool) (now : datetime) (line : str) : list str :=
  match classify line with
  | HeaderLine => if hw then [] else [lit "real_time," ++ line ++ [LF]]
  | DataLine => [timestamp_of now ++ lit "," ++ line ++ [LF]]
  | _ => []
  end.

(** The effects of processing a line: console and file only. *)
Definition is_line_effect (e : effect) : bool :=
  match e with
  | Print _ | FileWrite _ => true
  | _ => false
  end.


(** What [log_data] has done when the loop starts. *)
Definition startup (port output_file : str) (baud : Z) : list effect :=
  [SerialOpen; Print (msg_connected port baud); FileOpen;
   Print (msg_logging_to output_file); Print msg_starting; Print msg_press].

Definition no_exit (evs : list event) : bool :=
  forallb (fun ev => negb (is_exit ev)) evs.


(** The counter is the number of data records in the file. *)
Definition counts_data_records (st : logger) : Prop :=
  line_count st
  = Z.of_nat (length (filter (fun r => negb (is_header_record r))
                        (file_writes (trace st)))).

(** *** Sample inputs *)

(** A line as the device sends it: the ASCII text and a line feed. *)
Definition sent (s : string) : bytes := list_byte_of_string s ++ [x0a].

Definition sample_now : datetime :=
  {| year := 2026; month := 11; day := 4;
     hour := 9; minute := 5; second := 7; microsecond := 123456 |}.

Definition sample_header : bytes := sent "timestamp,level,temp".
Definition sample_data : bytes := sent "123,45.6,22.1".
Definition sample_comment : bytes := sent "#debug".
Definition sample_unknown : bytes := sent "xyz".

(** A data line with a byte that is not UTF-8 in it: [1,2\xff\n]. *)
Definition sample_garbled : bytes := [x31; x2c; x32; xff; x0a].

Definition sample_port : str := lit "COM3".
Definition sample_file : str := lit "sensor_data.csv".

(** ** Port discovery and the command line *)

(** An entry of [serial.tools.list_ports.comports()]. *)
Record port_info := { device : str; description : str }.

Definition is_ascii (c : Z) : bool := (0 <=? c) && (c <? 0x80).

Definition ascii_lower (c : Z) : Z :=
  if (65 <=? c) && (c <=? 90) then c + 32 else c.

Section Discovery.

(** [str.lower] on text with a character above ASCII follows the case
    mappings of the interpreter's Unicode database, taken as given. *)
Variable unicode_lower : str -> str.

(** [s.lower()] *)
Definition lower (s : str) : str :=
  if forallb is_ascii s then map ascii_lower s else unicode_lower s.

(** [sub in s] *)
Fixpoint contains (s sub : str) : bool :=
  startswith s sub
  || match s with
     | [] => false
     | _ :: r => contains r sub
     end.

Definition keywords : list str :=
  [lit "cp210"; lit "ch340"; lit "usb-serial"; lit "esp32"; lit "feather"].

(** [any(keyword in port.description.lower() for keyword in [...])] *)
Definition describes_esp32 (port : port_info) : bool :=
  existsb (fun keyword => contains (lower (description port)) keyword)
    keywords.

Definition msg_detected (dev : str) : str :=
  lit "Auto-detected ESP32 on: " ++ dev.

(** [find_esp32_port()], given what [comports()] returns: what it prints
    and the device it returns, [None] when no port matches. *)
Fixpoint find_esp32_port (ports : list port_info)
  : list effect * option str :=
  match ports with
  | [] => ([], None)
  | port :: rest =>
    if describes_esp32 port
    then ([Print (msg_detected (device port))], Some (device port))
    else find_esp32_port rest
  end.

Definition msg_port_line (port : port_info) : str :=
  lit "  " ++ device port ++ lit " - " ++ description port.

(** [list_serial_ports()], given what [comports()] returns. *)
Definition list_serial_ports (ports : list port_info)
  : list effect * list str :=
  match ports with
  | [] => ([Print (lit "No serial ports found!")], [])
  | _ :: _ =>
    (Print (LF :: lit "Available serial ports:")
     :: map (fun port => Print (msg_port_line port)) ports,
     map device ports)
  end.

(** What [parser.parse_args()] returns. *)
Record arguments := {
  arg_port : option str;
  arg_output : str;
  arg_baud : Z;
  arg_list : bool;
  arg_auto : bool
}.

Definition msg_no_detect : str :=
  LF :: CROSS :: lit " Could not auto-detect ESP32. Available ports:".
Definition msg_need_port : str :=
  lit "Error: Please specify a serial port or use -a for auto-detect".
Definition msg_available : str := LF :: lit "Available ports:".
Definition msg_example (dev : str) : str :=
  LF :: lit "Example: python csv_logger.py " ++ dev ++ lit " sensor_data.csv".

(** What was done before, then the run. *)
Definition preceded (t : list effect) (o : outcome (list effect))
  : outcome (list effect) :=
  match o with
  | Polling tr => Polling (t ++ tr)
  | Returned tr => Returned (t ++ tr)
  end.

(** [main()] from the parsed arguments on.  [scan1] and [scan2] are what
    the first and the second call of [comports()] return; a port that is
    [None] or the empty string counts as not given. *)
Definition main (args : arguments) (scan1 scan2 : list port_info)
    (ser_result file_result : open_result) (evs : list event)
  : outcome (list effect) :=
  if arg_list args then Returned (fst (list_serial_ports scan1))
  else if arg_auto args then
    let '(t, port) := find_esp32_port scan1 in
    match port with
    | Some (c :: dev) =>
      preceded t (log_data (c :: dev) (arg_output args) (arg_baud args)
                    ser_result file_result evs)
    | _ =>
      Returned (t ++ Print msg_no_detect :: fst (list_serial_ports scan2))
    end
  else
    match arg_port args with
    | Some (c :: dev) =>
      log_data (c :: dev) (arg_output args) (arg_baud args)
        ser_result file_result evs
    | _ =>
      let '(t, ports) := list_serial_ports scan1 in
      Returned (Print msg_need_port :: Print msg_available :: t
                ++ match ports with
                   | first :: _ => [Print (msg_example first)]
                   | [] => []
                   end)
    end.

End Discovery.

(** *** Vocabulary for the properties of whole runs *)

(** A handle has not been opened, is open, or was closed. *)
Inductive handle := Unopened | Open | Closed.

(** The serial port and the output file. *)
Record resources := { ser_handle : handle; file_handle : handle }.

(** The discipline of the two handles, one effect at a time: each is opened
    once, the file only while the port is open, a record is written only to
    the open file, the file is closed before the port; [None] when an
    effect breaks it. *)
Definition follow (r : resources) (e : effect) : option resources :=
  match e, ser_handle r, file_handle r with
  | Print _, _, _ => Some r
  | SerialOpen, Unopened, Unopened =>
    Some {| ser_handle := Open; file_handle := Unopened |}
  | FileOpen, Open, Unopened =>
    Some {| ser_handle := Open; file_handle := Open |}
  | FileWrite _, Open, Open => Some r
  | FileClose, Open, Open =>
    Some {| ser_handle := Open; file_handle := Closed |}
  | SerialClose, Open, Unopened =>
    Some {| ser_handle := Closed; file_handle := Unopened |}
  | SerialClose, Open, Closed =>
    Some {| ser_handle := Closed; file_handle := Closed |}
  | _, _, _ => None
  end.

Fixpoint follow_all (r : resources) (tr : list effect) : option resources :=
  match tr with
  | [] => Some r
  | e :: tr' =>
    match follow r e with
    | Some r' => follow_all r' tr'
    | None => None
    end
  end.

Definition untouched : resources :=
  {| ser_handle := Unopened; file_handle := Unopened |}.

Definition is_open (h : handle) : bool :=
  match h with Open => true | _ => false end.

Definition is_print (e : effect) : bool :=
  match e with Print _ => true | _ => false end.

(** The lines that reach the file: every data line, and the first header
    line while the flag [hw] is down. *)
Fixpoint persisted (hw : bool) (lines : list bytes) : list bytes :=
  match lines with
  | [] => []
  | raw :: rest =>
    if is_data_line raw then raw :: persisted hw rest
    else if is_header_line raw then
      if hw then persisted hw rest else raw :: persisted true rest
    else persisted hw rest
  end.

(** The text of a received line before trimming. *)
Definition decoded (raw : bytes) : str :=
  match utf8_decode Replace raw with
  | Some text => text
  | None => []
  end.

(** The order of two sequences of integers, the first difference
    deciding: the order of [str] values, and of tuples. *)
Fixpoint lex_compare (a b : list Z) : comparison :=
  match a, b with
  | [], [] => Eq
  | [], _ :: _ => Lt
  | _ :: _, [] => Gt
  | x :: a', y :: b' =>
    match x ?= y with
    | Eq => lex_compare a' b'
    | c => c
    end
  end.

(** A clock reading down to the millisecond. *)
Definition millis_key (dt : datetime) : list Z :=
  [year dt; month dt; day dt; hour dt; minute dt; second dt;
   microsecond dt / 1000].

(** *** More sample inputs *)

Definition sample_later : datetime :=
  {| year := 2026; month := 11; day := 4;
     hour := 9; minute := 5; second := 8; microsecond := 1000 |}.

(** A line of white space only: a space and CR LF. *)
Definition sample_blank : bytes := [x20; x0d; x0a].

Definition sample_onboard : port_info :=
  {| device := lit "COM1"; description := lit "Communications Port" |}.
Definition sample_bridge : port_info :=
  {| device := lit "COM3";
     description := lit "Silicon Labs CP210x USB to UART Bridge" |}.
Definition sample_clone : port_info :=
  {| device := lit "COM7"; description := lit "USB-SERIAL CH340" |}.

Definition sample_args : arguments :=
  {| arg_port := Some (lit "COM3"); arg_output := sample_file;
     arg_baud := 115200; arg_list := false; arg_auto := false |}.

(** ** Decimal rendering *)

Lemma fixed_length (w : nat) (n : Z) : length (fixed w n) = w.
Proof.
  revert n; induction w as [|w IH]; intro n; simpl; [reflexivity|].
  rewrite length_app, IH; simpl; lia.
Qed.

Lemma digit_char (n : Z) : is_ascii_digit (48 + n mod 10) = true.
Proof.
  unfold is_ascii_digit.
  pose proof (Z.mod_pos_bound n 10 ltac:(lia)).
  apply andb_true_intro; split; apply Z.leb_le; lia.
Qed.

Lemma fixed_digits (w : nat) (n : Z) :
  Forall (fun c => is_ascii_digit c = true) (fixed w n).
Proof.
  revert n; induction w as [|w IH]; intro n; simpl; [constructor|].
  apply Forall_app; split; [apply IH|].
  constructor; [apply digit_char | constructor].
Qed.

Lemma digits_of_digits (f : nat) (n : Z) :
  Forall (fun c => is_ascii_digit c = true) (digits_of f n).
Proof.
  revert n; induction f as [|f IH]; intro n; simpl; [constructor|].
  apply Forall_app; split.
  - destruct (n <? 10); [constructor | apply IH].
  - constructor; [apply digit_char | constructor].
Qed.

Lemma fixed_zero (w : nat) : fixed w 0 = repeat 48 w.
Proof.
  induction w as [|w IH]; simpl; [reflexivity|].
  change (0 / 10) with 0; rewrite IH.
  change (48 + 0 mod 10) with 48.
  symmetry; apply repeat_cons.
Qed.

Lemma rjust_snoc (w : nat) (fill : Z) (d : str) (x : Z) :
  rjust (S w) fill (d ++ [x]) = rjust w fill d ++ [x].
Proof.
  unfold rjust; rewrite length_app; cbn [length].
  replace (S w - (length d + 1))%nat with (w - length d)%nat by lia.
  now rewrite app_assoc.
Qed.

Lemma digits_of_fixed (w f : nat) (n : Z) :
  0 <= n < 10 ^ Z.of_nat (S w) -> n < 2 ^ Z.of_nat (S f) ->
  rjust (S w) 48 (digits_of (S f) n) = fixed (S w) n.
Proof.
  revert f n; induction w as [|w IH]; intros f n Hn Hf.
  - change (10 ^ Z.of_nat 1) with 10 in Hn.
    simpl digits_of; destruct (Z.ltb_spec n 10); [|lia]; reflexivity.
  - simpl digits_of; destruct (Z.ltb_spec n 10) as [Hlt|Hge].
    + cbn [app]; change (fixed (S (S w)) n)
        with (fixed (S w) (n / 10) ++ [48 + n mod 10]).
      rewrite (Z.div_small n 10) by lia.
      rewrite fixed_zero; unfold rjust; simpl length.
      f_equal; f_equal; lia.
    + destruct f as [|f]; [change (2 ^ Z.of_nat 1) with 2 in Hf; lia|].
      rewrite rjust_snoc.
      change (fixed (S (S w)) n)
        with (fixed (S w) (n / 10) ++ [48 + n mod 10]).
      f_equal; apply IH.
      * split; [apply Z.div_pos; lia|].
        apply Z.div_lt_upper_bound; [lia|].
        replace (Z.of_nat (S (S w))) with (Z.succ (Z.of_nat (S w))) in Hn
          by lia.
        rewrite Z.pow_succ_r in Hn by lia; lia.
      * apply Z.div_lt_upper_bound; [lia|].
        replace (Z.of_nat (S (S f))) with (Z.succ (Z.of_nat (S f))) in Hf
          by lia.
        rewrite Z.pow_succ_r in Hf by lia.
        pose proof (Z.pow_pos_nonneg 2 (Z.of_nat (S f)) ltac:(lia)
                      ltac:(lia)); lia.
Qed.

Lemma decimal_fuel (n : Z) :
  0 <= n -> n < 2 ^ Z.of_nat (S (Z.to_nat (Z.log2 n))).
Proof.
  intro Hn.
  replace (Z.of_nat (S (Z.to_nat (Z.log2 n)))) with (Z.succ (Z.log2 n))
    by (pose proof (Z.log2_nonneg n); lia).
  destruct (Z.eq_dec n 0) as [->|Hnz]; [reflexivity|].
  apply Z.log2_spec; lia.
Qed.

Lemma value_of_snoc (s : str) (c : Z) :
  value_of (s ++ [c]) = 10 * value_of s + (c - 48).
Proof. unfold value_of; now rewrite fold_left_app. Qed.

Lemma digits_of_succ (f : nat) (n : Z) :
  digits_of (S f) n
  = (if n <? 10 then [] else digits_of f (n / 10)) ++ [48 + n mod 10].
Proof. reflexivity. Qed.

Lemma digits_of_value (f : nat) (n : Z) :
  0 <= n < 2 ^ Z.of_nat (S f) -> value_of (digits_of (S f) n) = n.
Proof.
  revert n; induction f as [|f IH]; intros n Hn;
    rewrite digits_of_succ, value_of_snoc.
  - change (2 ^ Z.of_nat 1) with 2 in Hn.
    destruct (Z.ltb_spec n 10); [|lia].
    rewrite Z.mod_small by lia; change (value_of []) with 0; lia.
  - destruct (Z.ltb_spec n 10) as [Hlt|Hge].
    + rewrite Z.mod_small by lia; change (value_of []) with 0; lia.
    + rewrite IH.
      * pose proof (Z.div_mod n 10 ltac:(lia)); lia.
      * split; [apply Z.div_pos; lia|].
        apply Z.div_lt_upper_bound; [lia|].
        rewrite (Nat2Z.inj_succ (S f)), Z.pow_succ_r in Hn by lia.
        pose proof (Z.pow_pos_nonneg 2 (Z.of_nat (S f)) ltac:(lia)
                      ltac:(lia)); lia.
Qed.

(** The digits [str(n)] prints denote [n]. *)
Lemma decimal_value (n : Z) : 0 <= n -> value_of (decimal n) = n.
Proof.
  intro Hn; apply digits_of_value; split; [exact Hn|].
  now apply decimal_fuel.
Qed.

Lemma zero_padded_fixed (w : nat) (n : Z) :
  0 <= n < 10 ^ Z.of_nat (S w) -> zero_padded (S w) n = fixed (S w) n.
Proof.
  intro Hn; unfold zero_padded, str_of_int.
  destruct (Z.ltb_spec n 0); [lia|].
  unfold decimal; apply digits_of_fixed; [exact Hn|].
  apply decimal_fuel; lia.
Qed.

Lemma fixed_split (a b : nat) (n : Z) :
  fixed (a + b) n = fixed a (n / 10 ^ Z.of_nat b) ++ fixed b n.
Proof.
  revert n; induction b as [|b IH]; intro n.
  - rewrite Nat.add_0_r; simpl; now rewrite Z.div_1_r, app_nil_r.
  - rewrite Nat.add_succ_r.
    change (fixed (S (a + b)) n)
      with (fixed (a + b) (n / 10) ++ [48 + n mod 10]).
    change (fixed (S b) n) with (fixed b (n / 10) ++ [48 + n mod 10]).
    rewrite IH, app_assoc; do 3 f_equal.
    rewrite Z.div_div by (try apply Z.pow_pos_nonneg; lia).
    f_equal.
    rewrite Nat2Z.inj_succ, Z.pow_succ_r by lia; reflexivity.
Qed.

Lemma firstn_drop_tail (h t : str) (k : nat) :
  length t = k -> firstn (length (h ++ t) - k) (h ++ t) = h.
Proof.
  intros <-; rewrite length_app.
  replace (length h + length t - length t)%nat with (length h + 0)%nat
    by lia.
  now rewrite firstn_app_2, firstn_O, app_nil_r.
Qed.

(** On a valid clock reading the timestamp of the code is the one of the
    specification, with the microseconds cut to milliseconds. *)
Lemma timestamp_iso (now : datetime) :
  valid_datetime now -> timestamp_of now = iso_millis now.
Proof.
  intros (Hy & Hm & Hd & HH & HM & HS & Hu).
  unfold timestamp_of, strftime, iso_millis.
  rewrite !zero_padded_fixed by (simpl; lia).
  change 6%nat with (3 + 3)%nat; rewrite (fixed_split 3 3).
  change (10 ^ Z.of_nat 3) with 1000.
  unfold drop_last3.
  repeat rewrite (app_assoc _ _ (fixed 3 (microsecond now))).
  rewrite firstn_drop_tail by apply fixed_length.
  now repeat rewrite <- app_assoc.
Qed.

(** ** What a timestamp is made of *)

Lemma Forall_firstn_keep {A : Type} (P : A -> Prop) (k : nat) (l : list A) :
  Forall P l -> Forall P (firstn k l).
Proof.
  intro H; revert k; induction H as [|x l Hx Hl IH]; intros [|k]; simpl;
    constructor; auto.
Qed.

Lemma stamp_digit (c : Z) : is_ascii_digit c = true -> is_stamp_char c = true.
Proof. unfold is_stamp_char; intros ->; reflexivity. Qed.

Lemma digits_stamp (s : str) :
  Forall (fun c => is_ascii_digit c = true) s ->
  Forall (fun c => is_stamp_char c = true) s.
Proof. apply Forall_impl; exact stamp_digit. Qed.

Lemma zero_padded_chars (w : nat) (n : Z) :
  Forall (fun c => is_stamp_char c = true) (zero_padded w n).
Proof.
  unfold zero_padded, rjust; apply Forall_app; split.
  - apply Forall_forall; intros c Hc; apply repeat_spec in Hc; now subst.
  - unfold str_of_int, decimal; destruct (n <? 0).
    + constructor; [reflexivity | apply digits_stamp, digits_of_digits].
    + apply digits_stamp, digits_of_digits.
Qed.

Lemma timestamp_chars (now : datetime) :
  Forall (fun c => is_stamp_char c = true) (timestamp_of now).
Proof.
  unfold timestamp_of, drop_last3, strftime; apply Forall_firstn_keep.
  repeat first [apply zero_padded_chars | apply Forall_app; split];
    repeat constructor.
Qed.

Lemma timestamp_without (c : Z) (now : datetime) :
  is_stamp_char c = false -> ~ In c (timestamp_of now).
Proof.
  intros Hc Hin.
  pose proof (timestamp_chars now) as H.
  rewrite Forall_forall in H; apply H in Hin; congruence.
Qed.

Lemma data_record_not_header (now : datetime) (rest : str) :
  is_header_record (timestamp_of now ++ lit "," ++ rest) = false.
Proof.
  pose proof (timestamp_chars now) as H.
  destruct (timestamp_of now) as [|c s]; [reflexivity|].
  inversion H as [|? ? Hc _]; subst.
  unfold is_header_record; cbn [app lit startswith].
  destruct (Z.eqb_spec c (Z.of_N (N_of_ascii "r"))) as [->|]; [|reflexivity].
  discriminate Hc.
Qed.

(** ** Trimming *)

Lemma lstrip_incl (s : str) (x : Z) : In x (lstrip s) -> In x s.
Proof.
  induction s as [|c r IH]; simpl; [auto|].
  destruct (isspace c); [right; auto | auto].
Qed.

Lemma strip_incl (s : str) (x : Z) : In x (strip s) -> In x s.
Proof.
  unfold strip, rstrip; intro H.
  apply lstrip_incl in H; apply in_rev in H.
  apply lstrip_incl in H; now apply in_rev in H.
Qed.

Lemma strip_snoc_space (s : str) (c : Z) :
  isspace c = true -> strip (s ++ [c]) = strip s.
Proof.
  intro Hc; unfold strip, rstrip.
  rewrite rev_app_distr; simpl; now rewrite Hc.
Qed.

Lemma only_last_spec {A : Type} (p : A -> bool) (l : list A) (x : A) :
  only_last p l = true -> In x l -> p x = true ->
  exists l', l = l' ++ [x] /\ forall y, In y l' -> p y = false.
Proof.
  induction l as [|a r IH]; simpl; [contradiction|].
  intros Hl Hin Hx; destruct (p a) eqn:Ha.
  - destruct r; [|discriminate].
    destruct Hin as [->|[]]; exists []; split; [reflexivity | contradiction].
  - destruct Hin as [->|Hin]; [congruence|].
    destruct (IH Hl Hin Hx) as (l' & -> & Hl').
    exists (a :: l'); split; [reflexivity|].
    intros y [<-|Hy]; auto.
Qed.

(** A text whose only line feed is its last character has none once
    trimmed. *)
Lemma strip_no_lf (s : str) :
  only_last (fun c => c =? LF) s = true -> ~ In LF (strip s).
Proof.
  intros Hs Hin.
  destruct (only_last_spec _ s LF Hs (strip_incl _ _ Hin) eq_refl)
    as (l' & -> & Hl').
  rewrite strip_snoc_space in Hin by reflexivity.
  apply strip_incl, Hl' in Hin; discriminate Hin.
Qed.

Lemma chomp_snoc (s : str) : chomp (s ++ [LF]) = s.
Proof.
  unfold chomp; rewrite rev_app_distr; simpl; apply rev_involutive.
Qed.

Lemma after_comma_app (a b : str) :
  ~ In COMMA a -> after_comma (a ++ COMMA :: b) = b.
Proof.
  induction a as [|c a IH]; simpl; intro H; [reflexivity|].
  destruct (Z.eqb_spec c COMMA) as [->|_]; [tauto | apply IH; tauto].
Qed.

(** ** The decoder, one sequence at a time *)

Lemma byte_val_range (b : byte) : 0 <= byte_val b <= 255.
Proof.
  unfold byte_val; pose proof (Byte.to_N_bounded b); lia.
Qed.

Ltac to_arith :=
  unfold is_continuation in *;
  repeat match goal with
  | H : (_ || _) = false |- _ => apply orb_false_elim in H; destruct H
  | H : (_ && _) = true |- _ => apply andb_prop in H; destruct H
  | H : negb _ = false |- _ => apply negb_false_iff in H
  | H : negb _ = true |- _ => apply negb_true_iff in H
  | H : (if ?c then _ else _) = false |- _ => destruct c eqn:?
  | H : (_ <? _) = false |- _ => apply Z.ltb_ge in H
  | H : (_ <? _) = true |- _ => apply Z.ltb_lt in H
  | H : (_ <=? _) = true |- _ => apply Z.leb_le in H
  | H : (_ =? _) = false |- _ => apply Z.eqb_neq in H
  end.

Ltac chunk consumed rest out :=
  exists consumed, rest, out;
  split; [reflexivity|];
  split; [discriminate|];
  split;
  [ intro; cbn [utf8_decode];
    repeat match goal with H : _ = _ :> bool |- _ => rewrite H end;
    reflexivity
  | to_arith; rewrite ?Z.shiftl_mul_pow2 by lia;
    first [ solve [left; repeat split; lia]
          | solve [right; split; [lia | repeat constructor; lia]]
          | solve [repeat constructor; lia] ] ].

(** One step of the decoder on [b :: r]: the bytes it takes, the bytes it
    resumes at, and the code point it yields, [None] for a malformed
    sequence.  A byte below 0x80 stands for itself; every other sequence
    is made of bytes from 0x80 up and yields a code point from 0x80 up. *)
Lemma utf8_decode_step (b : byte) (r : bytes) :
  exists (consumed rest : bytes) (out : option Z),
    b :: r = consumed ++ rest /\ consumed <> [] /\
    (forall errors,
        utf8_decode errors (b :: r)
        = match out with
          | Some c => ok c (utf8_decode errors rest)
          | None => bad errors (utf8_decode errors rest)
          end) /\
    match out with
    | Some c =>
      (c = byte_val b /\ consumed = [b] /\ c < 0x80)
      \/ (0x80 <= c /\ Forall (fun x => 0x80 <= byte_val x) consumed)
    | None => Forall (fun x => 0x80 <= byte_val x) consumed
    end.
Proof.
  destruct (byte_val b <? 0x80) eqn:H1;
    [chunk [b] r (Some (byte_val b))|].
  destruct (byte_val b <? 0xC2) eqn:H2; [chunk [b] r (@None Z)|].
  destruct (byte_val b <? 0xE0) eqn:H3.
  { destruct r as [|b2 r2]; [chunk [b] (@nil byte) (@None Z)|].
    destruct (is_continuation (byte_val b2)) eqn:H4.
    - chunk [b; b2] r2
        (Some (Z.shiftl (byte_val b) 6 + byte_val b2
               - (Z.shiftl 0xC0 6 + 0x80))).
    - chunk [b] (b2 :: r2) (@None Z). }
  destruct (byte_val b <? 0xF0) eqn:H4.
  { destruct r as [|b2 r2]; [chunk [b] (@nil byte) (@None Z)|].
    destruct (negb (is_continuation (byte_val b2))
              || (if byte_val b2 <? 0xA0 then byte_val b =? 0xE0
                  else byte_val b =? 0xED)) eqn:H5;
      [chunk [b] (b2 :: r2) (@None Z)|].
    destruct r2 as [|b3 r3]; [chunk [b; b2] (@nil byte) (@None Z)|].
    destruct (is_continuation (byte_val b3)) eqn:H6.
    - chunk [b; b2; b3] r3
        (Some (Z.shiftl (byte_val b) 12 + Z.shiftl (byte_val b2) 6
               + byte_val b3
               - (Z.shiftl 0xE0 12 + Z.shiftl 0x80 6 + 0x80))).
    - chunk [b; b2] (b3 :: r3) (@None Z). }
  destruct (byte_val b <? 0xF5) eqn:H5; [|chunk [b] r (@None Z)].
  destruct r as [|b2 r2]; [chunk [b] (@nil byte) (@None Z)|].
  destruct (negb (is_continuation (byte_val b2))
            || (if byte_val b2 <? 0x90 then byte_val b =? 0xF0
                else byte_val b =? 0xF4)) eqn:H6;
    [chunk [b] (b2 :: r2) (@None Z)|].
  destruct r2 as [|b3 r3]; [chunk [b; b2] (@nil byte) (@None Z)|].
  destruct (negb (is_continuation (byte_val b3))) eqn:H7;
    [chunk [b; b2] (b3 :: r3) (@None Z)|].
  destruct r3 as [|b4 r4]; [chunk [b; b2; b3] (@nil byte) (@None Z)|].
  destruct (is_continuation (byte_val b4)) eqn:H8.
  - chunk [b; b2; b3; b4] r4
      (Some (Z.shiftl (byte_val b) 18 + Z.shiftl (byte_val b2) 12
             + Z.shiftl (byte_val b3) 6 + byte_val b4
             - (Z.shiftl 0xF0 18 + Z.shiftl 0x80 12 + Z.shiftl 0x80 6
                + 0x80))).
  - chunk [b; b2; b3] (b4 :: r4) (@None Z).
Qed.

Lemma decode_induction (P : bytes -> Prop) :
  P [] ->
  (forall b r,
      (forall rest, (length rest <= length r)%nat -> P rest) -> P (b :: r)) ->
  forall bs, P bs.
Proof.
  intros Hnil Hcons bs.
  assert (H : forall n bs', (length bs' <= n)%nat -> P bs').
  { induction n as [|n IH]; intros [|b r] Hlen; simpl in Hlen;
      try exact Hnil; [lia|].
    apply Hcons; intros rest Hrest; apply IH; lia. }
  apply (H (length bs)); lia.
Qed.

Lemma chunk_shorter (b : byte) (r consumed rest : bytes) :
  b :: r = consumed ++ rest -> consumed <> [] ->
  (length rest <= length r)%nat.
Proof.
  intros E Hne; apply (f_equal (@length byte)) in E.
  rewrite length_app in E; simpl in E.
  destruct consumed; [congruence | simpl in E; lia].
Qed.

(** With [errors='replace'] decoding never raises. *)
Lemma utf8_decode_replace_total (bs : bytes) :
  exists text, utf8_decode Replace bs = Some text.
Proof.
  induction bs as [|b r IH] using decode_induction;
    [exists []; reflexivity|].
  destruct (utf8_decode_step b r) as (consumed & rest & out & E & Hne & Hd & _).
  destruct (IH rest (chunk_shorter _ _ _ _ E Hne)) as [text Ht].
  rewrite Hd, Ht; destruct out; eexists; reflexivity.
Qed.

(** On well-formed input both modes give the same text. *)
Lemma utf8_decode_strict_replace (bs : bytes) (text : str) :
  utf8_decode Strict bs = Some text -> utf8_decode Replace bs = Some text.
Proof.
  revert text; induction bs as [|b r IH] using decode_induction;
    intros text H; [exact H|].
  destruct (utf8_decode_step b r) as (consumed & rest & out & E & Hne & Hd & _).
  rewrite Hd in *; destruct out as [c|]; [|discriminate H].
  destruct (utf8_decode Strict rest) as [t|] eqn:Ht; [|discriminate H].
  rewrite (IH rest (chunk_shorter _ _ _ _ E Hne) t Ht); exact H.
Qed.

Lemma only_last_skip {A : Type} (p : A -> bool) (l1 l2 : list A) :
  Forall (fun x => p x = false) l1 ->
  only_last p (l1 ++ l2) = only_last p l2.
Proof.
  induction 1 as [|x l Hx _ IH]; simpl; [reflexivity | now rewrite Hx].
Qed.

(** The decoder makes a line feed only out of a line-feed byte, so the text
    of a line that [readline()] returned has no line feed before its end. *)
Lemma utf8_decode_lf (raw : bytes) (text : str) :
  readline_shaped raw = true -> utf8_decode Replace raw = Some text ->
  only_last (fun c => c =? LF) text = true.
Proof.
  unfold readline_shaped; revert text.
  induction raw as [|b r IH] using decode_induction; intros text Hraw Hdec.
  { injection Hdec as <-; reflexivity. }
  destruct (utf8_decode_step b r)
    as (consumed & rest & out & E & Hne & Hd & Hout).
  pose proof (chunk_shorter _ _ _ _ E Hne) as Hlen.
  rewrite Hd in Hdec.
  assert (Hhigh : Forall (fun x => 0x80 <= byte_val x) consumed ->
                  only_last (fun x => byte_val x =? LF) rest = true).
  { intro Hc; rewrite E, only_last_skip in Hraw; [exact Hraw|].
    revert Hc; apply Forall_impl; intros x Hx.
    apply Z.eqb_neq; unfold LF; lia. }
  destruct out as [c|].
  - unfold ok in Hdec.
    destruct (utf8_decode Replace rest) as [t|] eqn:Ht; [|discriminate Hdec].
    injection Hdec as <-.
    destruct Hout as [(-> & -> & _)|(Hc & Hall)].
    + injection E as <-; simpl in Hraw |- *.
      destruct (byte_val b =? LF).
      * destruct r; [|discriminate Hraw].
        injection Ht as <-; reflexivity.
      * apply (IH r Hlen t Hraw Ht).
    + simpl; destruct (Z.eqb_spec c LF) as [->|_]; [unfold LF in Hc; lia|].
      apply (IH rest Hlen t (Hhigh Hall) Ht).
  - simpl in Hdec.
    destruct (utf8_decode Replace rest) as [t|] eqn:Ht; [|discriminate Hdec].
    injection Hdec as <-; simpl.
    apply (IH rest Hlen t (Hhigh Hout) Ht).
Qed.

Lemma trimmed_no_lf (raw : bytes) :
  readline_shaped raw = true -> ~ In LF (trimmed raw).
Proof.
  intro Hraw; unfold trimmed.
  destruct (utf8_decode Replace raw) as [text|] eqn:Hd; [|intros []].
  apply strip_no_lf, (utf8_decode_lf raw text Hraw Hd).
Qed.

(** ** One line *)

Lemma file_writes_app (a b : list effect) :
  file_writes (a ++ b) = file_writes a ++ file_writes b.
Proof.
  induction a as [|e a IH]; simpl; [reflexivity|].
  destruct e; simpl; now rewrite IH.
Qed.

Lemma count_app (p : effect -> bool) (a b : list effect) :
  count p (a ++ b) = (count p a + count p b)%nat.
Proof. unfold count; now rewrite filter_app, length_app. Qed.

Lemma process_line_trimmed (st : logger) (now : datetime) (raw : bytes) :
  process_line st now raw = process_text st now (trimmed raw).
Proof.
  unfold process_line, trimmed.
  destruct (utf8_decode_replace_total raw) as [text ->]; reflexivity.
Qed.

Lemma classify_nil : classify [] = UnknownLine.
Proof. reflexivity. Qed.

(** The chain of tests of the loop body is the classification of the
    specification followed by the action of the class. *)
Lemma process_text_classify (st : logger) (now : datetime) (line : str) :
  process_text st now line
  = match line with
    | [] => st
    | _ :: _ =>
      match classify line with
      | Comment => emit st [Print line]
      | HeaderLine =>
        if header_written st then st
        else {| header_written := true;
                line_count := line_count st;
                trace := trace st
                         ++ [FileWrite (lit "real_time," ++ line ++ [LF]);
                             Print (msg_header line)] |}
      | DataLine =>
        {| header_written := header_written st;
           line_count := line_count st + 1;
           trace := trace st
                    ++ [FileWrite (timestamp_of now ++ lit "," ++ line
                                   ++ [LF]);
                        Print (msg_data (line_count st + 1)
                                 (timestamp_of now) line)] |}
      | UnknownLine => emit st [Print (msg_unknown line)]
      end
    end.
Proof.
  destruct line as [|c r]; [reflexivity|].
  unfold process_text, classify.
  destruct (startswith (c :: r) (lit "#")); [reflexivity|].
  destruct (startswith (c :: r) (lit "timestamp,")).
  - destruct (header_written st); reflexivity.
  - destruct (looks_like_data (c :: r)); reflexivity.
Qed.

Lemma process_text_writes (st : logger) (now : datetime) (line : str) :
  file_writes (trace (process_text st now line))
  = file_writes (trace st) ++ records_for (header_written st) now line.
Proof.
  rewrite process_text_classify; unfold records_for.
  destruct line as [|c r]; [now rewrite classify_nil, app_nil_r|].
  destruct (classify (c :: r)); try destruct (header_written st);
    cbn [trace emit]; rewrite ?file_writes_app; simpl;
    now rewrite ?app_nil_r.
Qed.

Lemma process_text_flag (st : logger) (now : datetime) (line : str) :
  header_written (process_text st now line)
  = header_written st
    || match classify line with HeaderLine => true | _ => false end.
Proof.
  rewrite process_text_classify.
  destruct line as [|c r]; [now rewrite classify_nil, orb_false_r|].
  destruct (classify (c :: r)); destruct (header_written st) eqn:E;
    cbn [header_written emit]; rewrite ?E; reflexivity.
Qed.

Lemma process_text_count (st : logger) (now : datetime) (line : str) :
  line_count (process_text st now line)
  = line_count st
    + match classify line with DataLine => 1 | _ => 0 end.
Proof.
  rewrite process_text_classify.
  destruct line as [|c r]; [rewrite classify_nil; lia|].
  destruct (classify (c :: r)); destruct (header_written st) eqn:E;
    cbn [line_count emit]; lia.
Qed.

Lemma process_text_effects (st : logger) (now : datetime) (line : str) :
  exists es,
    trace (process_text st now line) = trace st ++ es
    /\ forallb is_line_effect es = true.
Proof.
  rewrite process_text_classify.
  destruct line as [|c r]; [exists []; now rewrite app_nil_r|].
  destruct (classify (c :: r)); try destruct (header_written st);
    cbn [trace emit]; try (eexists; split; reflexivity).
  exists []; now rewrite app_nil_r.
Qed.

Lemma count_line_effects (p : effect -> bool) (es : list effect) :
  (forall e, is_line_effect e = true -> p e = false) ->
  forallb is_line_effect es = true -> count p es = 0%nat.
Proof.
  intros Hp; induction es as [|e es IH]; simpl; [reflexivity|].
  intro H; apply andb_prop in H; destruct H as [He Hes].
  unfold count in *; simpl; rewrite (Hp e He); auto.
Qed.

Lemma process_line_closes (p : effect -> bool) (st : logger)
    (now : datetime) (raw : bytes) :
  (forall e, is_line_effect e = true -> p e = false) ->
  count p (trace (process_line st now raw)) = count p (trace st).
Proof.
  intro Hp; rewrite process_line_trimmed.
  destruct (process_text_effects st now (trimmed raw)) as (es & -> & Hes).
  rewrite count_app, (count_line_effects p es Hp Hes); lia.
Qed.

(** ** The whole loop *)

Lemma log_loop_polling (st : logger) (evs : list event) :
  no_exit evs = true -> log_loop st evs = Polling (final (log_loop st evs)).
Proof.
  revert st; induction evs as [|ev evs IH]; intros st H; [reflexivity|].
  simpl in H; apply andb_prop in H; destruct H as [Hev Hevs].
  destruct ev; simpl in *; try discriminate; auto.
Qed.

Lemma log_loop_app (st : logger) (pre evs : list event) :
  no_exit pre = true ->
  log_loop st (pre ++ evs) = log_loop (final (log_loop st pre)) evs.
Proof.
  revert st; induction pre as [|ev pre IH]; intros st H; [reflexivity|].
  simpl in H; apply andb_prop in H; destruct H as [Hev Hpre].
  destruct ev; simpl in *; try discriminate; auto.
Qed.

(** A run only adds to what was done before. *)
Lemma log_loop_extends (st : logger) (evs : list event) :
  exists es, trace (final (log_loop st evs)) = trace st ++ es.
Proof.
  revert st; induction evs as [|ev evs IH]; intro st.
  - exists []; simpl; now rewrite app_nil_r.
  - destruct ev; simpl.
    + apply IH.
    + destruct (IH (process_line st now raw)) as [es ->].
      rewrite process_line_trimmed.
      destruct (process_text_effects st now (trimmed raw)) as (es' & -> & _).
      exists (es' ++ es); now rewrite app_assoc.
    + eexists; unfold cleanup, emit; cbn [trace];
        rewrite <- app_assoc; reflexivity.
    + eexists; unfold cleanup, emit; cbn [trace];
        rewrite <- app_assoc; reflexivity.
Qed.

Lemma log_loop_count (st : logger) (evs : list event) :
  line_count (final (log_loop st evs))
  = line_count st
    + Z.of_nat (length (filter is_data_line (lines_read evs))).
Proof.
  revert st; induction evs as [|ev evs IH]; intro st; simpl; [lia|].
  destruct ev; simpl; try lia; [apply IH|].
  rewrite IH, process_line_trimmed, process_text_count.
  unfold is_data_line at 2.
  destruct (classify (trimmed raw)); simpl length; lia.
Qed.

Lemma log_data_opened (port output_file : str) (baud : Z)
    (evs : list event) :
  final (log_data port output_file baud Opened Opened evs)
  = trace (final (log_loop (start (startup port output_file baud)) evs)).
Proof.
  unfold log_data, startup; simpl.
  destruct (log_loop _ evs); reflexivity.
Qed.

Lemma is_data_line_classify (raw : bytes) :
  is_data_line raw = true <-> classify (trimmed raw) = DataLine.
Proof.
  unfold is_data_line; destruct (classify (trimmed raw));
    split; congruence.
Qed.

Lemma is_header_line_classify (raw : bytes) :
  is_header_line raw = true <-> classify (trimmed raw) = HeaderLine.
Proof.
  unfold is_header_line; destruct (classify (trimmed raw));
    split; congruence.
Qed.

Lemma header_record_is_header (line : str) :
  is_header_record (lit "real_time," ++ line ++ [LF]) = true.
Proof. reflexivity. Qed.



Lemma process_line_counts (st : logger) (now : datetime) (raw : bytes) :
  counts_data_records st -> counts_data_records (process_line st now raw).
Proof.
  unfold counts_data_records; rewrite process_line_trimmed.
  rewrite process_text_writes, process_text_count, filter_app, length_app.
  unfold records_for; intros ->.
  destruct (classify (trimmed raw)); destruct (header_written st);
    cbn [filter length]; rewrite ?header_record_is_header,
      ?data_record_not_header; cbn [negb length]; lia.
Qed.

Lemma log_loop_counts (st : logger) (evs : list event) :
  counts_data_records st -> counts_data_records (final (log_loop st evs)).
Proof.
  revert st; induction evs as [|ev evs IH]; intros st H; [exact H|].
  destruct ev; simpl.
  - apply IH, H.
  - apply IH, process_line_counts, H.
  - unfold counts_data_records, cleanup, emit in *; cbn [trace line_count].
    rewrite !file_writes_app; simpl; now rewrite !app_nil_r.
  - unfold counts_data_records, cleanup, emit in *; cbn [trace line_count].
    rewrite !file_writes_app; simpl; now rewrite !app_nil_r.
Qed.


(** ** The claims *)

(** C1. Processing a data line appends exactly one record to the output
    file, the timestamp, a comma, the trimmed line and a line feed; what
    follows the first comma of that record is the trimmed line, unchanged. *)
Theorem C1_data_line_round_trip (st : logger) (now : datetime)
    (raw : bytes) :
  is_data_line raw = true ->
  let record := timestamp_of now ++ lit "," ++ trimmed raw ++ [LF] in
  file_writes (trace (process_line st now raw))
  = file_writes (trace st) ++ [record]
  /\ payload record = trimmed raw.
Proof.
  intros Hdata record; split.
  - rewrite process_line_trimmed, process_text_writes; unfold records_for.
    apply is_data_line_classify in Hdata; now rewrite Hdata.
  - unfold payload, record.
    change (timestamp_of now ++ lit "," ++ trimmed raw ++ [LF])
      with (timestamp_of now ++ COMMA :: trimmed raw ++ [LF]).
    replace (timestamp_of now ++ COMMA :: trimmed raw ++ [LF])
      with ((timestamp_of now ++ COMMA :: trimmed raw) ++ [LF])
      by now rewrite <- app_assoc.
    rewrite chomp_snoc; apply after_comma_app.
    apply timestamp_without; reflexivity.
Qed.


(** C4. The counter starts at zero, never decreases, grows by one exactly
    on a data line, and after any run equals both the number of data lines
    read and the number of data records in the file. *)
Theorem C4_line_count_counts_data_lines :
  (forall st now raw,
      line_count (process_line st now raw)
      = line_count st + (if is_data_line raw then 1 else 0))
  /\ (forall st now raw, line_count st <= line_count (process_line st now raw))
  /\ (forall port output_file baud evs,
         let st := final (log_loop (start (startup port output_file baud))
                            evs) in
         line_count (start (startup port output_file baud)) = 0
         /\ line_count st
            = Z.of_nat (length (filter is_data_line (lines_read evs)))
         /\ line_count st
            = Z.of_nat (length (filter (fun r => negb (is_header_record r))
                                  (file_writes (trace st))))).
Proof.
  assert (Hstep : forall st now raw,
             line_count (process_line st now raw)
             = line_count st + (if is_data_line raw then 1 else 0)).
  { intros st now raw.
    rewrite process_line_trimmed, process_text_count; unfold is_data_line.
    destruct (classify (trimmed raw)); reflexivity. }
  split; [exact Hstep | split].
  - intros st now raw; rewrite Hstep; destruct (is_data_line raw); lia.
  - intros port output_file baud evs st; split; [reflexivity | split].
    + unfold st; rewrite log_loop_count; simpl; lia.
    + apply log_loop_counts; reflexivity.
Qed.

Lemma classify_first (c : Z) (r : str) :
  classify (c :: r)
  = if c =? 35 then Comment
    else if startswith (c :: r) (lit "timestamp,") then HeaderLine
    else if isdigit c || (c =? 45) then DataLine
    else UnknownLine.
Proof.
  unfold classify, looks_like_data; cbn [lit startswith].
  change (Z.of_N (N_of_ascii "#")) with 35.
  change (Z.of_N (N_of_ascii "-")) with 45.
  now rewrite !andb_true_r.
Qed.

Lemma header_first (c : Z) (r : str) :
  startswith (c :: r) (lit "timestamp,") = true -> c = 116.
Proof.
  cbn [lit startswith]; intro H; apply andb_prop in H.
  destruct H as [H _]; now apply Z.eqb_eq in H.
Qed.

Lemma isdigit_ascii (c : Z) :
  c < 0x80 -> isdigit c = is_ascii_digit c.
Proof.
  intro H; unfold isdigit; destruct (Z.ltb_spec c 0x80); [reflexivity|lia].
Qed.

(** What processing a line adds never is the decode warning. *)
Lemma process_text_no_warning (st : logger) (now : datetime) (line : str) :
  exists es,
    trace (process_text st now line) = trace st ++ es
    /\ ~ In (Print msg_decode_error) es.
Proof.
  rewrite process_text_classify.
  destruct line as [|c r]; [exists []; rewrite app_nil_r; auto|].
  rewrite classify_first.
  destruct (Z.eqb_spec c 35) as [->|_].
  { eexists; split; [reflexivity|].
    intros [H|[]]; discriminate H. }
  destruct (startswith (c :: r) (lit "timestamp,")).
  { destruct (header_written st).
    - exists []; rewrite app_nil_r; auto.
    - eexists; split; [reflexivity|].
      intros [H|[H|[]]]; discriminate H. }
  destruct (isdigit c || (c =? 45)).
  - eexists; split; [reflexivity|].
    intros [H|[H|[]]]; discriminate H.
  - eexists; split; [reflexivity|].
    intros [H|[]]; discriminate H.
Qed.

(** The handler of [UnicodeDecodeError] is never reached: whatever the
    bytes, decoding with [errors='replace'] returns a text, the text of
    strict decoding where that succeeds; the line goes on to be trimmed and
    classified, and what it adds to the trace is not the decode warning. *)
Lemma decode_handler_unreachable (st : logger) (now : datetime)
    (raw : bytes) :
  exists text es,
    utf8_decode Replace raw = Some text
    /\ (forall t, utf8_decode Strict raw = Some t -> t = text)
    /\ process_line st now raw = process_text st now (strip text)
    /\ trace (process_line st now raw) = trace st ++ es
    /\ ~ In (Print msg_decode_error) es
    /\ (forall evs,
           log_loop st (Readline raw now :: evs)
           = log_loop (process_line st now raw) evs).
Proof.
  destruct (utf8_decode_replace_total raw) as [text Ht].
  destruct (process_text_no_warning st now (strip text)) as (es & He & Hw).
  exists text, es; repeat split; auto.
  - intros t Hs; apply utf8_decode_strict_replace in Hs; congruence.
  - unfold process_line; now rewrite Ht.
  - unfold process_line; now rewrite Ht.
Qed.

(** C5. A trimmed, non-empty line falls in exactly one class, the first
    test that holds deciding: [#] first is a comment, [timestamp,] first a
    header line, a digit or [-] first a data line, anything else unknown.
    A comment is printed as it is and an unknown line after [? ]; neither
    writes to the file nor touches the flag or the counter. *)
Theorem C5_classes_and_console_only_lines (st : logger) (now : datetime)
    (raw : bytes) :
  let line := trimmed raw in
  line <> [] ->
  (classify line = Comment <-> startswith line (lit "#") = true)
  /\ (classify line = HeaderLine
      <-> startswith line (lit "timestamp,") = true)
  /\ (classify line = DataLine
      <-> isdigit (hd 0 line) = true \/ startswith line (lit "-") = true)
  /\ (classify line = UnknownLine
      <-> startswith line (lit "#") = false
          /\ startswith line (lit "timestamp,") = false
          /\ isdigit (hd 0 line) = false
          /\ startswith line (lit "-") = false)
  /\ (classify line = Comment ->
      process_line st now raw = emit st [Print line])
  /\ (classify line = UnknownLine ->
      process_line st now raw = emit st [Print (lit "? " ++ line)])
  /\ (classify line = Comment \/ classify line = UnknownLine ->
      file_writes (trace (process_line st now raw)) = file_writes (trace st)
      /\ header_written (process_line st now raw) = header_written st
      /\ line_count (process_line st now raw) = line_count st).
Proof.
  intros line Hne.
  rewrite process_line_trimmed, process_text_writes, process_text_flag,
    process_text_count, process_text_classify.
  unfold records_for; fold line.
  destruct line as [|c r] eqn:E; [congruence|]; clear Hne.
  rewrite classify_first; cbn [hd].
  assert (H35 : startswith (c :: r) (lit "#") = (c =? 35))
    by (cbn [lit startswith]; now rewrite andb_true_r).
  assert (H45 : startswith (c :: r) (lit "-") = (c =? 45))
    by (cbn [lit startswith]; now rewrite andb_true_r).
  rewrite H35, H45.
  destruct (Z.eqb_spec c 35) as [->|N35].
  { rewrite isdigit_ascii by lia.
    repeat split; try reflexivity; try congruence; try discriminate;
      try (intros [? | ?]; discriminate); try (intros; intuition congruence);
      rewrite ?app_nil_r, ?orb_false_r, ?Z.add_0_r; reflexivity. }
  destruct (startswith (c :: r) (lit "timestamp,")) eqn:Ht.
  { apply header_first in Ht; subst c.
    rewrite isdigit_ascii by lia.
    repeat split; try reflexivity; try congruence; try discriminate;
      try (intros [? | ?]; discriminate); intros; intuition congruence. }
  destruct (isdigit c) eqn:Hd; cbn [orb].
  { repeat split; try reflexivity; try congruence; try discriminate;
      try (intros [? | ?]; discriminate); try (intros; intuition congruence);
      auto. }
  destruct (Z.eqb_spec c 45) as [->|N45].
  { repeat split; try reflexivity; try congruence; try discriminate;
      try (intros [? | ?]; discriminate); try (intros; intuition congruence);
      auto. }
  repeat split; try reflexivity; try congruence; try discriminate;
    try (intros [? | ?]; discriminate); try (intros; intuition congruence);
    rewrite ?app_nil_r, ?orb_false_r, ?Z.add_0_r; reflexivity.
Qed.

Lemma log_loop_closes (p : effect -> bool) (st : logger)
    (pre : list event) :
  (forall e, is_line_effect e = true -> p e = false) ->
  no_exit pre = true ->
  count p (trace (final (log_loop st pre))) = count p (trace st).
Proof.
  intro Hp; revert st; induction pre as [|ev pre IH]; intros st H;
    [reflexivity|].
  simpl in H; apply andb_prop in H; destruct H as [Hev Hpre].
  destruct ev; simpl in *; try discriminate.
  - now apply IH.
  - rewrite IH by assumption; now apply process_line_closes.
Qed.

(** The loop is left through one of its two handlers only. *)
Lemma log_loop_returns_on_exit (st st' : logger) (evs : list event) :
  log_loop st evs = Returned st' ->
  exists pre ev post,
    evs = pre ++ ev :: post /\ no_exit pre = true /\ is_exit ev = true.
Proof.
  revert st; induction evs as [|ev evs IH]; intros st H; [discriminate H|].
  destruct ev; simpl in H.
  - destruct (IH _ H) as (pre & ev & post & -> & Hpre & Hev).
    exists (NoInput :: pre), ev, post; auto.
  - destruct (IH _ H) as (pre & ev & post & -> & Hpre & Hev).
    exists (Readline raw now :: pre), ev, post; auto.
  - exists [], KeyboardInterrupt, evs; auto.
  - exists [], (SerialException e), evs; auto.
Qed.

(** C6. When the loop is interrupted or the serial port fails, the handler
    prints its message and then the cleanup closes the file, closes the
    port and prints [Files closed]; the whole run closes each of them
    exactly once.  For an interruption the message is the summary, which
    ends in the decimal digits of the counter as it stands, the number of
    data lines read; for a serial error it is the text of the error. *)
Theorem C6_cleanup_exactly_once (port output_file : str) (baud : Z)
    (pre post : list event) (ev : event) :
  no_exit pre = true -> is_exit ev = true ->
  let st := final (log_loop (start (startup port output_file baud)) pre) in
  let total := str_of_int (line_count st) in
  let said := match ev with
              | SerialException e =>
                LF :: CROSS :: lit " Serial port error: " ++ e
              | _ =>
                LF :: LF :: CHECK :: lit " Stopped logging. Total lines: "
                ++ total
              end in
  let tr := trace st
            ++ [Print said; FileClose; SerialClose;
                Print (CHECK :: lit " Files closed")] in
  log_data port output_file baud Opened Opened (pre ++ ev :: post)
  = Returned tr
  /\ count is_file_close tr = 1%nat
  /\ count is_serial_close tr = 1%nat
  /\ line_count st
     = Z.of_nat (length (filter is_data_line (lines_read pre)))
  /\ value_of total = line_count st
  /\ Forall (fun c => is_ascii_digit c = true) total.
Proof.
  intros Hpre Hev st total said tr.
  assert (Hclose : forall p,
             (forall e, is_line_effect e = true -> p e = false) ->
             count p (startup port output_file baud) = 0%nat ->
             count p tr
             = count p [Print said; FileClose; SerialClose;
                        Print (CHECK :: lit " Files closed")]).
  { intros p Hp H0; unfold tr, st.
    rewrite count_app, log_loop_closes by assumption.
    cbn [trace start]; rewrite H0; reflexivity. }
  assert (Hcount : line_count st
                   = Z.of_nat (length (filter is_data_line
                                         (lines_read pre))))
    by (unfold st; rewrite log_loop_count; cbn [line_count start]; lia).
  assert (Htotal : total = decimal (line_count st)).
  { unfold total, str_of_int.
    destruct (Z.ltb_spec (line_count st) 0); [lia | reflexivity]. }
  split; [|split; [|split; [|split; [|split]]]].
  - unfold log_data, open_serial_port; cbn [negb app].
    fold (startup port output_file baud).
    rewrite log_loop_app by exact Hpre; fold st.
    destruct ev; try discriminate Hev; simpl;
      unfold tr, cleanup, emit; cbn [trace]; now rewrite <- app_assoc.
  - rewrite Hclose; [reflexivity | | reflexivity].
    intros []; simpl; congruence.
  - rewrite Hclose; [reflexivity | | reflexivity].
    intros []; simpl; congruence.
  - exact Hcount.
  - rewrite Htotal; apply decimal_value; lia.
  - rewrite Htotal; apply digits_of_digits.
Qed.

(** C7. When the output file cannot be opened, [log_data] reports it,
    closes the serial port it had opened and returns: whatever the device
    sends, the loop is not entered, no file is opened or written, nothing
    is tried again. *)
Theorem C7_file_open_failure_releases_port (port output_file : str)
    (baud : Z) (e : str) (evs : list event) :
  let tr := [SerialOpen; Print (msg_connected port baud);
             Print (msg_file_error e); SerialClose] in
  log_data port output_file baud Opened (OpenFailed e) evs = Returned tr
  /\ file_writes tr = []
  /\ ~ In FileOpen tr
  /\ count (fun x => match x with SerialOpen => true | _ => false end) tr
     = 1%nat
  /\ count is_serial_close tr = 1%nat.
Proof.
  intro tr; repeat split.
  intros [H|[H|[H|[H|[]]]]]; discriminate H.
Qed.

Lemma quiet_run (st : logger) (pre : list event) :
  forallb is_quiet pre = true ->
  no_exit pre = true
  /\ file_writes (trace (final (log_loop st pre))) = file_writes (trace st)
  /\ header_written (final (log_loop st pre)) = header_written st.
Proof.
  revert st; induction pre as [|ev pre IH]; intros st H; [now repeat split|].
  simpl in H; apply andb_prop in H; destruct H as [Hev Hpre].
  destruct ev; simpl in Hev; try discriminate Hev; simpl.
  - apply IH, Hpre.
  - destruct (IH (process_line st now raw) Hpre) as (H1 & H2 & H3).
    rewrite H2, H3, process_line_trimmed, process_text_writes,
      process_text_flag.
    unfold records_for, is_data_line, is_header_line in *.
    destruct (classify (trimmed raw)); try discriminate Hev;
      now rewrite app_nil_r, orb_false_r.
Qed.

Lemma startswith_app (a s p : str) :
  startswith (a ++ s) (a ++ p) = startswith s p.
Proof.
  induction a as [|c a IH]; simpl; [reflexivity|].
  now rewrite Z.eqb_refl, IH.
Qed.

Lemma startswith_longer (s t p : str) :
  startswith s p = true -> startswith (s ++ t) p = true.
Proof.
  revert s; induction p as [|c p IH]; intros s H; [reflexivity|].
  destruct s as [|d s]; [discriminate H|]; simpl in *.
  apply andb_prop in H; destruct H as [-> H]; simpl; auto.
Qed.

Lemma classify_header (line : str) :
  classify line = HeaderLine -> startswith line (lit "timestamp,") = true.
Proof.
  unfold classify.
  destruct (startswith line (lit "#")); [discriminate|].
  destruct (startswith line (lit "timestamp,")); [reflexivity|].
  destruct (looks_like_data line); discriminate.
Qed.

(** C8, as the code has it.  The first record of a run comes from the first
    line that is a header line or a data line: a header line gives
    [real_time,timestamp,<fields>], a data line its own record, written
    whether or not a header was written before. *)
Theorem C8_first_record_of_a_run (port output_file : str) (baud : Z)
    (pre post : list event) (raw : bytes) (now : datetime) :
  forallb is_quiet pre = true ->
  is_header_line raw || is_data_line raw = true ->
  let first := if is_header_line raw
               then lit "real_time," ++ trimmed raw ++ [LF]
               else timestamp_of now ++ lit "," ++ trimmed raw ++ [LF] in
  (exists rest,
      file_writes
        (final (log_data port output_file baud Opened Opened
                  (pre ++ Readline raw now :: post)))
      = first :: rest)
  /\ (is_header_line raw = true ->
      startswith first (lit "real_time,timestamp,") = true).
Proof.
  intros Hpre Hraw first; split.
  - rewrite log_data_opened.
    destruct (quiet_run (start (startup port output_file baud)) pre Hpre)
      as (Hne & Hw & Hf).
    rewrite log_loop_app by exact Hne; simpl.
    set (st := final (log_loop _ pre)) in *.
    destruct (log_loop_extends (process_line st now raw) post) as [es ->].
    rewrite file_writes_app, process_line_trimmed, process_text_writes,
      Hw, Hf.
    exists (file_writes es); unfold first, records_for, is_header_line,
      is_data_line in *; simpl.
    destruct (classify (trimmed raw)); try discriminate Hraw; reflexivity.
  - intro Hh; unfold first; rewrite Hh.
    apply is_header_line_classify, classify_header in Hh.
    change (lit "real_time,timestamp,")
      with (lit "real_time," ++ lit "timestamp,").
    rewrite startswith_app; now apply startswith_longer.
Qed.

Lemma iso_millis_length (now : datetime) : length (iso_millis now) = 23%nat.
Proof.
  unfold iso_millis; rewrite !length_app, !fixed_length; reflexivity.
Qed.

(** C9, as the code has it.  For a data line the clock reading is written
    as [YYYY-MM-DD HH:MM:SS.mmm], 23 characters with the microseconds cut to
    milliseconds, and the console line is [[<counter>] <timestamp> | <line>]
    with the counter right-aligned in four columns and padded with spaces. *)
Theorem C9_timestamp_and_console_line (st : logger) (now : datetime)
    (raw : bytes) :
  valid_datetime now -> is_data_line raw = true ->
  let stamp := iso_millis now in
  let counter := str_of_int (line_count st + 1) in
  timestamp_of now = stamp
  /\ length stamp = 23%nat
  /\ trace (process_line st now raw)
     = trace st
       ++ [FileWrite (stamp ++ lit "," ++ trimmed raw ++ [LF]);
           Print (lit "[" ++ repeat 32 (4 - length counter) ++ counter
                  ++ lit "] " ++ stamp ++ lit " | " ++ trimmed raw)].
Proof.
  intros Hnow Hdata stamp counter.
  pose proof (timestamp_iso now Hnow) as Hs; fold stamp in Hs.
  split; [exact Hs | split; [apply iso_millis_length|]].
  apply is_data_line_classify in Hdata.
  rewrite process_line_trimmed, process_text_classify, Hdata, Hs.
  destruct (trimmed raw) as [|c r] eqn:E; [discriminate Hdata|].
  cbn [trace]; unfold msg_data, format_4d, rjust; fold counter.
  now rewrite <- !app_assoc.
Qed.

Lemma records_one_line (hw : bool) (now : datetime) (raw : bytes) :
  readline_shaped raw = true ->
  Forall one_line (records_for hw now (trimmed raw)).
Proof.
  intro Hraw; pose proof (trimmed_no_lf raw Hraw) as Hline.
  unfold records_for.
  destruct (classify (trimmed raw));
    [ apply Forall_nil | destruct hw; [apply Forall_nil|] |
    | apply Forall_nil ];
    (apply Forall_cons; [|apply Forall_nil]).
  - exists (lit "real_time," ++ trimmed raw).
    split; [now rewrite <- app_assoc|].
    intro H; apply in_app_or in H; destruct H as [H|H]; [|tauto].
    cbv in H; intuition discriminate.
  - exists (timestamp_of now ++ lit "," ++ trimmed raw).
    split; [now rewrite <- !app_assoc|].
    intro H; apply in_app_or in H; destruct H as [H|H].
    + revert H; apply timestamp_without; reflexivity.
    + destruct H as [H|H]; [discriminate H | tauto].
Qed.

Lemma log_loop_one_line (st : logger) (evs : list event) :
  forallb event_shaped evs = true ->
  Forall one_line (file_writes (trace st)) ->
  Forall one_line (file_writes (trace (final (log_loop st evs)))).
Proof.
  revert st; induction evs as [|ev evs IH]; intros st H Hst; [exact Hst|].
  simpl in H; apply andb_prop in H; destruct H as [Hev Hevs].
  destruct ev; simpl.
  - now apply IH.
  - apply IH; [exact Hevs|].
    rewrite process_line_trimmed, process_text_writes.
    apply Forall_app; split; [exact Hst | now apply records_one_line].
  - unfold cleanup, emit; cbn [trace].
    rewrite !file_writes_app; simpl; now rewrite !app_nil_r.
  - unfold cleanup, emit; cbn [trace].
    rewrite !file_writes_app; simpl; now rewrite !app_nil_r.
Qed.

(** C10. Every record a run writes, header or data, is a body without line
    feed followed by one line feed: [readline()] returns at most one line,
    the decoder makes a line feed only out of a line-feed byte, trimming
    removes the one at the end, and neither the timestamp nor the header
    prefix has one. *)
Theorem C10_one_record_per_line (port output_file : str) (baud : Z)
    (ser_result file_result : open_result) (evs : list event) :
  forallb event_shaped evs = true ->
  Forall one_line
    (file_writes
       (final (log_data port output_file baud ser_result file_result evs))).
Proof.
  intro Hevs; destruct ser_result as [|e1]; [|constructor].
  destruct file_result as [|e2]; [|constructor].
  rewrite log_data_opened; apply log_loop_one_line; [exact Hevs|].
  constructor.
Qed.

(** ** The two handles *)

Lemma follow_all_app (r : resources) (a b : list effect) :
  follow_all r (a ++ b)
  = match follow_all r a with
    | Some r' => follow_all r' b
    | None => None
    end.
Proof.
  revert r; induction a as [|e a IH]; intro r; simpl; [reflexivity|].
  destruct (follow r e); [apply IH | reflexivity].
Qed.

Lemma follow_all_prints (r : resources) (t : list effect) :
  forallb is_print t = true -> follow_all r t = Some r.
Proof.
  induction t as [|e t IH]; simpl; [reflexivity|].
  intro H; apply andb_prop in H; destruct H as [He Ht].
  destruct e; try discriminate He; simpl; auto.
Qed.

Lemma follow_all_lines (es : list effect) :
  forallb is_line_effect es = true ->
  follow_all {| ser_handle := Open; file_handle := Open |} es
  = Some {| ser_handle := Open; file_handle := Open |}.
Proof.
  induction es as [|e es IH]; simpl; [reflexivity|].
  intro H; apply andb_prop in H; destruct H as [He Hes].
  destruct e; try discriminate He; simpl; auto.
Qed.

Lemma log_loop_follow (st : logger) (evs : list event) :
  follow_all untouched (trace st)
  = Some {| ser_handle := Open; file_handle := Open |} ->
  follow_all untouched (trace (final (log_loop st evs)))
  = Some (match log_loop st evs with
          | Polling _ => {| ser_handle := Open; file_handle := Open |}
          | Returned _ => {| ser_handle := Closed; file_handle := Closed |}
          end).
Proof.
  revert st; induction evs as [|ev evs IH]; intros st H; [exact H|].
  destruct ev; simpl.
  - apply IH, H.
  - apply IH; rewrite process_line_trimmed.
    destruct (process_text_effects st now (trimmed raw)) as (es & -> & Hes).
    now rewrite follow_all_app, H, follow_all_lines.
  - unfold cleanup, emit; cbn [trace]; now rewrite !follow_all_app, H.
  - unfold cleanup, emit; cbn [trace]; now rewrite !follow_all_app, H.
Qed.

Lemma log_data_follow (port output_file : str) (baud : Z)
    (ser_result file_result : open_result) (evs : list event) :
  exists r,
    follow_all untouched
      (final (log_data port output_file baud ser_result file_result evs))
    = Some r
    /\ match log_data port output_file baud ser_result file_result evs with
       | Returned _ =>
         is_open (ser_handle r) = false /\ is_open (file_handle r) = false
       | Polling _ =>
         is_open (ser_handle r) = true /\ is_open (file_handle r) = true
       end
    /\ match ser_result, file_result with
       | OpenFailed _, _ => r = untouched
       | Opened, OpenFailed _ =>
         r = {| ser_handle := Closed; file_handle := Unopened |}
       | Opened, Opened => True
       end.
Proof.
  destruct ser_result as [|e1]; [|eexists; now repeat split].
  destruct file_result as [|e2]; [|eexists; now repeat split].
  pose proof (log_loop_follow (start (startup port output_file baud)) evs
                eq_refl) as H.
  rewrite log_data_opened, H.
  unfold log_data, open_serial_port; cbn [negb app].
  fold (startup port output_file baud).
  destruct (log_loop _ evs); eexists; now repeat split.
Qed.

(** X1. Whatever the two opens give and whatever the device sends, [log_data]
    keeps the discipline of its handles: the port is opened at most once,
    the file only after the port, records are written only to the open
    file, the file is closed before the port.  A run that has returned
    holds no open handle; a run that has not holds both; a failed open
    leaves its handle unopened. *)
Theorem log_data_keeps_handle_discipline (port output_file : str)
    (baud : Z) (ser_result file_result : open_result) (evs : list event) :
  exists r,
    follow_all untouched
      (final (log_data port output_file baud ser_result file_result evs))
    = Some r
    /\ match log_data port output_file baud ser_result file_result evs with
       | Returned _ =>
         is_open (ser_handle r) = false /\ is_open (file_handle r) = false
       | Polling _ =>
         is_open (ser_handle r) = true /\ is_open (file_handle r) = true
       end
    /\ match ser_result, file_result with
       | OpenFailed _, _ => r = untouched
       | Opened, OpenFailed _ =>
         r = {| ser_handle := Closed; file_handle := Unopened |}
       | Opened, Opened => True
       end.
Proof. apply log_data_follow. Qed.

(** ** What reaches the file *)

Lemma header_payload (line : str) :
  payload (lit "real_time," ++ line ++ [LF]) = line.
Proof.
  unfold payload.
  change (lit "real_time," ++ line ++ [LF])
    with (lit "real_time" ++ COMMA :: line ++ [LF]).
  replace (lit "real_time" ++ COMMA :: line ++ [LF])
    with ((lit "real_time" ++ COMMA :: line) ++ [LF])
    by now rewrite <- app_assoc.
  rewrite chomp_snoc; apply after_comma_app.
  cbv; intuition discriminate.
Qed.

Lemma data_payload (now : datetime) (line : str) :
  payload (timestamp_of now ++ lit "," ++ line ++ [LF]) = line.
Proof.
  unfold payload.
  change (timestamp_of now ++ lit "," ++ line ++ [LF])
    with (timestamp_of now ++ COMMA :: line ++ [LF]).
  replace (timestamp_of now ++ COMMA :: line ++ [LF])
    with ((timestamp_of now ++ COMMA :: line) ++ [LF])
    by now rewrite <- app_assoc.
  rewrite chomp_snoc; apply after_comma_app.
  apply timestamp_without; reflexivity.
Qed.

Lemma log_loop_payloads (st : logger) (evs : list event) :
  map payload (file_writes (trace (final (log_loop st evs))))
  = map payload (file_writes (trace st))
    ++ map trimmed (persisted (header_written st) (lines_read evs)).
Proof.
  revert st; induction evs as [|ev evs IH]; intro st.
  - simpl; now rewrite app_nil_r.
  - destruct ev; cbn [log_loop lines_read persisted].
    + apply IH.
    + rewrite IH, process_line_trimmed, process_text_writes,
        process_text_flag, map_app, <- app_assoc.
      f_equal; unfold records_for, is_data_line, is_header_line.
      destruct (classify (trimmed raw)); rewrite ?orb_false_r, ?orb_true_r;
        try reflexivity.
      * destruct (header_written st); cbn [map app orb];
          [reflexivity | now rewrite header_payload].
      * cbn [map app]; now rewrite data_payload.
    + simpl; unfold cleanup, emit; cbn [trace].
      rewrite !file_writes_app; simpl; now rewrite !app_nil_r.
    + simpl; unfold cleanup, emit; cbn [trace].
      rewrite !file_writes_app; simpl; now rewrite !app_nil_r.
Qed.

(** X3. Taking the first field off every record of the file gives back, in the
    order of arrival, the trimmed text of every data line received and of
    the first header line: nothing is lost, repeated or reordered, and no
    other line leaves a record. *)
Theorem file_payloads_are_the_lines_received (port output_file : str)
    (baud : Z) (evs : list event) :
  map payload
    (file_writes
       (final (log_data port output_file baud Opened Opened evs)))
  = map trimmed (persisted false (lines_read evs)).
Proof.
  rewrite log_data_opened, log_loop_payloads; reflexivity.
Qed.

Lemma log_loop_without_quiet (st1 st2 : logger) (evs : list event) :
  header_written st1 = header_written st2 ->
  file_writes (trace st1) = file_writes (trace st2) ->
  file_writes
    (trace (final (log_loop st1 (filter (fun ev => negb (is_quiet ev)) evs))))
  = file_writes (trace (final (log_loop st2 evs))).
Proof.
  revert st1 st2; induction evs as [|ev evs IH]; intros st1 st2 Hw Hf;
    [exact Hf|].
  destruct ev; cbn [filter is_quiet negb].
  - now apply IH.
  - assert (Hq : negb (is_data_line raw) && negb (is_header_line raw) = true
                 -> header_written (process_line st2 now raw)
                    = header_written st2
                    /\ file_writes (trace (process_line st2 now raw))
                       = file_writes (trace st2)).
    { rewrite process_line_trimmed, process_text_writes, process_text_flag.
      unfold records_for, is_data_line, is_header_line.
      destruct (classify (trimmed raw)); try discriminate;
        now rewrite app_nil_r, orb_false_r. }
    destruct (negb (is_data_line raw) && negb (is_header_line raw));
      cbn [negb log_loop].
    + destruct (Hq eq_refl) as [H1 H2]; apply IH; congruence.
    + apply IH; rewrite !process_line_trimmed.
      * now rewrite !process_text_flag, Hw.
      * now rewrite !process_text_writes, Hw, Hf.
  - simpl; unfold cleanup, emit; cbn [trace].
    rewrite !file_writes_app; simpl; now rewrite !app_nil_r.
  - simpl; unfold cleanup, emit; cbn [trace].
    rewrite !file_writes_app; simpl; now rewrite !app_nil_r.
Qed.

(** X4. Idle passes and lines that are blank, comments or unknown leave no
    mark on the file: a run writes what it would write without them. *)
Theorem quiet_lines_leave_the_file_alone (port output_file : str)
    (baud : Z) (ser_result file_result : open_result) (evs : list event) :
  file_writes
    (final (log_data port output_file baud ser_result file_result
              (filter (fun ev => negb (is_quiet ev)) evs)))
  = file_writes
      (final (log_data port output_file baud ser_result file_result evs)).
Proof.
  destruct ser_result as [|e1]; [|reflexivity].
  destruct file_result as [|e2]; [|reflexivity].
  rewrite !log_data_opened; now apply log_loop_without_quiet.
Qed.

(** ** The order of timestamps *)

Lemma lex_compare_app (p q x y : list Z) :
  length p = length q ->
  lex_compare (p ++ x) (q ++ y)
  = match lex_compare p q with
    | Eq => lex_compare x y
    | c => c
    end.
Proof.
  revert q; induction p as [|a p IH]; intros [|b q] H; try discriminate H;
    [reflexivity|].
  simpl; destruct (a ?= b); auto.
Qed.

Lemma fixed_compare (w : nat) (m n : Z) :
  0 <= m < 10 ^ Z.of_nat w -> 0 <= n < 10 ^ Z.of_nat w ->
  lex_compare (fixed w m) (fixed w n) = (m ?= n).
Proof.
  revert m n; induction w as [|w IH]; intros m n Hm Hn.
  - change (10 ^ Z.of_nat 0) with 1 in *.
    replace m with 0 by lia; replace n with 0 by lia; reflexivity.
  - rewrite Nat2Z.inj_succ, Z.pow_succ_r in Hm, Hn by lia.
    change (fixed (S w) m) with (fixed w (m / 10) ++ [48 + m mod 10]).
    change (fixed (S w) n) with (fixed w (n / 10) ++ [48 + n mod 10]).
    rewrite lex_compare_app by now rewrite !fixed_length.
    pose proof (Z.div_mod m 10 ltac:(lia)) as Em.
    pose proof (Z.div_mod n 10 ltac:(lia)) as En.
    pose proof (Z.mod_pos_bound m 10 ltac:(lia)) as Rm.
    pose proof (Z.mod_pos_bound n 10 ltac:(lia)) as Rn.
    rewrite IH by (split; [apply Z.div_pos; lia
                          | apply Z.div_lt_upper_bound; lia]).
    cbn [lex_compare].
    destruct (Z.compare_spec (m / 10) (n / 10));
      destruct (Z.compare_spec (48 + m mod 10) (48 + n mod 10));
      destruct (Z.compare_spec m n); try reflexivity; lia.
Qed.

Lemma lex_compare_field (w : nat) (m n : Z) (x y : list Z) :
  0 <= m < 10 ^ Z.of_nat w -> 0 <= n < 10 ^ Z.of_nat w ->
  lex_compare (fixed w m ++ x) (fixed w n ++ y)
  = match m ?= n with
    | Eq => lex_compare x y
    | c => c
    end.
Proof.
  intros Hm Hn.
  rewrite lex_compare_app by now rewrite !fixed_length.
  now rewrite fixed_compare.
Qed.

(** X5. The text order of two timestamps is the order of the two clock
    readings down to the millisecond: sorting records as text sorts them
    by time, and a clock that does not go back gives timestamps that do
    not go back. *)
Theorem timestamps_sort_like_the_clock (a b : datetime) :
  valid_datetime a -> valid_datetime b ->
  lex_compare (timestamp_of a) (timestamp_of b)
  = lex_compare (millis_key a) (millis_key b).
Proof.
  intros Ha Hb; rewrite !timestamp_iso by assumption.
  destruct Ha as (Hy & Hm & Hd & HH & HM & HS & Hu).
  destruct Hb as (Hy' & Hm' & Hd' & HH' & HM' & HS' & Hu').
  assert (Hk : 0 <= microsecond a / 1000 < 1000)
    by (split; [apply Z.div_pos | apply Z.div_lt_upper_bound]; lia).
  assert (Hk' : 0 <= microsecond b / 1000 < 1000)
    by (split; [apply Z.div_pos | apply Z.div_lt_upper_bound]; lia).
  unfold iso_millis, millis_key; cbn [lex_compare].
  repeat (rewrite lex_compare_field by (simpl; lia);
          match goal with
          | |- context [?x ?= ?y] => destruct (x ?= y); try reflexivity
          end;
          cbn [lit app lex_compare]; rewrite ?Z.compare_refl).
  rewrite <- (app_nil_r (fixed 3 (microsecond a / 1000))).
  rewrite <- (app_nil_r (fixed 3 (microsecond b / 1000))).
  rewrite lex_compare_field by (simpl; lia).
  destruct (_ ?= _); reflexivity.
Qed.

(** ** Plain ASCII, blank lines, the ends of a record *)

Lemma utf8_decode_ascii (errors : errors_mode) (bs : bytes) :
  forallb (fun b => byte_val b <? 0x80) bs = true ->
  utf8_decode errors bs = Some (map byte_val bs).
Proof.
  induction bs as [|b r IH]; [reflexivity|].
  intro H; cbn [forallb] in H; apply andb_prop in H; destruct H as [Hb Hr].
  cbn [utf8_decode map]; rewrite Hb, (IH Hr); reflexivity.
Qed.

(** X6. Bytes below 0x80 are taken one for one: the line the loop classifies
    and writes is the line received, byte for byte, without the white
    space around it, and such a line is well-formed UTF-8. *)
Theorem ascii_line_is_taken_byte_for_byte (raw : bytes) :
  forallb (fun b => byte_val b <? 0x80) raw = true ->
  trimmed raw = strip (map byte_val raw) /\ well_formed raw = true.
Proof.
  intro H; unfold trimmed, well_formed.
  now rewrite !utf8_decode_ascii.
Qed.

Lemma trimmed_decoded (raw : bytes) : trimmed raw = strip (decoded raw).
Proof.
  unfold trimmed, decoded.
  destruct (utf8_decode_replace_total raw) as [text ->]; reflexivity.
Qed.

Lemma lstrip_nil (s : str) :
  lstrip s = [] <-> forallb isspace s = true.
Proof.
  induction s as [|c r IH]; simpl; [tauto|].
  destruct (isspace c); simpl; [exact IH | split; discriminate].
Qed.

Lemma lstrip_head (s t : str) (c : Z) :
  lstrip s = c :: t -> isspace c = false.
Proof.
  induction s as [|d r IH]; simpl; [discriminate|].
  destruct (isspace d) eqn:E; [exact IH | congruence].
Qed.

Lemma lstrip_suffix (s : str) : exists pre, s = pre ++ lstrip s.
Proof.
  induction s as [|c r [pre IH]]; simpl; [exists []; reflexivity|].
  destruct (isspace c); [exists (c :: pre); simpl; congruence|].
  exists []; reflexivity.
Qed.

Lemma forallb_rev {A : Type} (p : A -> bool) (l : list A) :
  forallb p (rev l) = forallb p l.
Proof.
  induction l as [|a l IH]; simpl; [reflexivity|].
  rewrite forallb_app, IH; simpl; rewrite andb_true_r; apply andb_comm.
Qed.

Lemma strip_nil (s : str) : strip s = [] <-> forallb isspace s = true.
Proof.
  unfold strip, rstrip; rewrite lstrip_nil, forallb_rev.
  split; intro H.
  - destruct (lstrip (rev s)) as [|c t] eqn:E.
    + apply lstrip_nil in E; now rewrite forallb_rev in E.
    + apply lstrip_head in E; simpl in H; rewrite E in H; discriminate H.
  - rewrite <- forallb_rev in H; apply lstrip_nil in H; now rewrite H.
Qed.

Lemma strip_last (s l : str) (c : Z) :
  strip s = l ++ [c] -> isspace c = false.
Proof.
  unfold strip, rstrip; intro H.
  destruct (lstrip_suffix (rev (lstrip (rev s)))) as [pre E].
  rewrite H in E; apply (f_equal (@rev Z)) in E.
  rewrite rev_involutive, app_assoc, rev_app_distr in E; simpl in E.
  now apply lstrip_head in E.
Qed.

(** X7. A line is dropped without a trace exactly as far as trimming goes: the
    trimmed text is empty if and only if the line holds nothing but white
    space, and such a line changes neither file, console, flag nor
    counter. *)
Theorem blank_line_changes_nothing (st : logger) (now : datetime)
    (raw : bytes) :
  (trimmed raw = [] <-> forallb isspace (decoded raw) = true)
  /\ (forallb isspace (decoded raw) = true -> process_line st now raw = st).
Proof.
  rewrite trimmed_decoded; split; [apply strip_nil|].
  intro H; apply strip_nil in H.
  now rewrite process_line_trimmed, trimmed_decoded, H.
Qed.

Lemma log_loop_writes_forall (P : str -> Prop) (st : logger)
    (evs : list event) :
  (forall hw now raw, Forall P (records_for hw now (trimmed raw))) ->
  Forall P (file_writes (trace st)) ->
  Forall P (file_writes (trace (final (log_loop st evs)))).
Proof.
  intro HP; revert st; induction evs as [|ev evs IH]; intros st Hst;
    [exact Hst|].
  destruct ev; simpl.
  - now apply IH.
  - apply IH; rewrite process_line_trimmed, process_text_writes.
    apply Forall_app; split; [exact Hst | apply HP].
  - unfold cleanup, emit; cbn [trace].
    rewrite !file_writes_app; simpl; now rewrite !app_nil_r.
  - unfold cleanup, emit; cbn [trace].
    rewrite !file_writes_app; simpl; now rewrite !app_nil_r.
Qed.

Lemma classify_written_nonempty (line : str) :
  classify line = HeaderLine \/ classify line = DataLine -> line <> [].
Proof. intros [H|H] ->; discriminate H. Qed.

Lemma trimmed_ends (raw : bytes) :
  trimmed raw <> [] ->
  exists l c, trimmed raw = l ++ [c] /\ isspace c = false.
Proof.
  intro Hne; destruct (exists_last Hne) as (l & c & E).
  exists l, c; split; [exact E|].
  rewrite trimmed_decoded in E; exact (strip_last _ _ _ E).
Qed.

(** X8. Every record of the file ends in a character that is not white space,
    followed by the line feed: no record is empty, and the carriage return
    of a line sent with CR LF never reaches the file. *)
Theorem records_end_without_white_space (port output_file : str)
    (baud : Z) (ser_result file_result : open_result) (evs : list event) :
  Forall (fun record =>
            exists body c, record = body ++ [c; LF] /\ isspace c = false)
    (file_writes
       (final (log_data port output_file baud ser_result file_result evs))).
Proof.
  destruct ser_result as [|e1]; [|constructor].
  destruct file_result as [|e2]; [|constructor].
  rewrite log_data_opened; apply log_loop_writes_forall; [|constructor].
  intros hw now raw; unfold records_for.
  destruct (classify (trimmed raw)) eqn:E; try constructor.
  - destruct hw; constructor; [|constructor].
    destruct (trimmed_ends raw) as (l & c & -> & Hc);
      [apply classify_written_nonempty; auto|].
    exists (lit "real_time," ++ l), c; split; [|exact Hc].
    now rewrite <- !app_assoc.
  - destruct (trimmed_ends raw) as (l & c & -> & Hc);
      [apply classify_written_nonempty; auto|].
    exists (timestamp_of now ++ lit "," ++ l), c; split; [|exact Hc].
    now rewrite <- !app_assoc.
  - constructor.
Qed.

(** ** The counter on the console *)

Lemma value_of_bound (s : str) :
  Forall (fun c => is_ascii_digit c = true) s ->
  0 <= value_of s < 10 ^ Z.of_nat (length s).
Proof.
  induction s as [|c s IH] using rev_ind; intro H;
    [change (0 <= 0 < 1); lia|].
  apply Forall_app in H; destruct H as [Hs Hc].
  inversion Hc as [|? ? Hd _]; subst.
  unfold is_ascii_digit in Hd; apply andb_prop in Hd.
  destruct Hd as [H1 H2]; apply Z.leb_le in H1, H2.
  rewrite value_of_snoc, length_app, Nat2Z.inj_add; simpl length.
  rewrite Z.pow_add_r by lia; change (10 ^ Z.of_nat 1) with 10.
  specialize (IH Hs); lia.
Qed.

Lemma decimal_length_le (w : nat) (n : Z) :
  0 <= n < 10 ^ Z.of_nat (S w) -> (length (decimal n) <= S w)%nat.
Proof.
  intro Hn.
  pose proof (digits_of_fixed w _ n Hn (decimal_fuel n ltac:(lia))) as H.
  fold (decimal n) in H; apply (f_equal (@length Z)) in H.
  unfold rjust in H; rewrite fixed_length, length_app, repeat_length in H.
  lia.
Qed.

(** X9. The counter between the brackets always reads as the count.  Up to
    9999 it is padded with spaces to four columns, so the console lines
    align; from 10000 on it is printed in full and the field grows: it is
    never cut. *)
Theorem counter_field_width (n : Z) :
  0 <= n ->
  (exists k, format_4d n = repeat 32 k ++ decimal n)
  /\ value_of (decimal n) = n
  /\ (n < 10000 -> length (format_4d n) = 4%nat)
  /\ (10000 <= n ->
      format_4d n = decimal n /\ (4 < length (format_4d n))%nat).
Proof.
  intro Hn.
  assert (Hs : str_of_int n = decimal n)
    by (unfold str_of_int; destruct (Z.ltb_spec n 0); [lia | reflexivity]).
  unfold format_4d, rjust; rewrite Hs.
  split; [eexists; reflexivity|].
  split; [now apply decimal_value|].
  split.
  - intro Hlt.
    pose proof (decimal_length_le 3 n ltac:(simpl; lia)).
    rewrite length_app, repeat_length; lia.
  - intro Hge.
    pose proof (value_of_bound (decimal n) (digits_of_digits _ n)) as Hb.
    rewrite decimal_value in Hb by exact Hn.
    assert (Hlen : (4 < length (decimal n))%nat).
    { destruct (Nat.lt_ge_cases 4 (length (decimal n))) as [|Hle]; [auto|].
      assert (10 ^ Z.of_nat (length (decimal n)) <= 10 ^ 4)
        by (apply Z.pow_le_mono_r; lia).
      change (10 ^ 4) with 10000 in *; lia. }
    replace (4 - length (decimal n))%nat with 0%nat by lia.
    split; [reflexivity | exact Hlen].
Qed.

(** ** The kinds of record *)

(** X11. The file holds header and data lines only: what follows the first comma
    of any record is a line that starts with [timestamp,], or with a digit
    or [-]; no comment, no unknown line and no blank line is ever in it. *)
Theorem file_holds_header_and_data_lines_only (port output_file : str)
    (baud : Z) (ser_result file_result : open_result) (evs : list event) :
  Forall (fun record =>
            classify (payload record) = HeaderLine
            \/ classify (payload record) = DataLine)
    (file_writes
       (final (log_data port output_file baud ser_result file_result evs))).
Proof.
  destruct ser_result as [|e1]; [|constructor].
  destruct file_result as [|e2]; [|constructor].
  rewrite log_data_opened; apply log_loop_writes_forall; [|constructor].
  intros hw now raw; unfold records_for.
  destruct (classify (trimmed raw)) eqn:E; try constructor.
  - destruct hw; constructor; [|constructor].
    rewrite header_payload; auto.
  - rewrite data_payload; auto.
  - constructor.
Qed.

(** ** Port discovery and the command line *)

Section DiscoveryFacts.

Variable unicode_lower : str -> str.

Lemma startswith_refl (k : str) : startswith k k = true.
Proof. induction k as [|c k IH]; simpl; [|rewrite Z.eqb_refl]; auto. Qed.

Lemma contains_app (a k b : str) : contains (a ++ k ++ b) k = true.
Proof.
  induction a as [|c a IH].
  - destruct (k ++ b) eqn:E; simpl; rewrite <- E;
      now rewrite (startswith_longer k b k (startswith_refl k)).
  - cbn [app contains]; rewrite IH; apply orb_true_r.
Qed.

(** X12. A description in ASCII that holds one of the five keywords, its letters
    in upper or lower case, is taken for an ESP32, wherever the keyword
    stands in it. *)
Theorem keyword_in_any_case_is_detected (dev pre k post : str) :
  forallb is_ascii (pre ++ k ++ post) = true ->
  In (map ascii_lower k) keywords ->
  describes_esp32 unicode_lower
    {| device := dev; description := pre ++ k ++ post |} = true.
Proof.
  intros Hascii Hk; unfold describes_esp32, lower; cbn [description].
  rewrite Hascii, !map_app; apply existsb_exists.
  exists (map ascii_lower k); split; [exact Hk | apply contains_app].
Qed.

Lemma find_no_match (ports : list port_info) :
  forallb (fun p => negb (describes_esp32 unicode_lower p)) ports = true ->
  find_esp32_port unicode_lower ports = ([], None).
Proof.
  induction ports as [|p ports IH]; simpl; [reflexivity|].
  intro H; apply andb_prop in H; destruct H as [Hp Hps].
  apply negb_true_iff in Hp; rewrite Hp; auto.
Qed.

Lemma find_first_match (pre post : list port_info) (port : port_info) :
  forallb (fun p => negb (describes_esp32 unicode_lower p)) pre = true ->
  describes_esp32 unicode_lower port = true ->
  find_esp32_port unicode_lower (pre ++ port :: post)
  = ([Print (msg_detected (device port))], Some (device port)).
Proof.
  induction pre as [|p pre IH]; simpl; intros H Hport.
  - now rewrite Hport.
  - apply andb_prop in H; destruct H as [Hp Hps].
    apply negb_true_iff in Hp; rewrite Hp; auto.
Qed.

Lemma find_sound (ports : list port_info) (dev : str) :
  snd (find_esp32_port unicode_lower ports) = Some dev ->
  exists pre port post,
    ports = pre ++ port :: post /\ device port = dev
    /\ describes_esp32 unicode_lower port = true
    /\ forallb (fun p => negb (describes_esp32 unicode_lower p)) pre = true.
Proof.
  induction ports as [|p ports IH]; simpl; [discriminate|].
  destruct (describes_esp32 unicode_lower p) eqn:E; simpl.
  - intro H; injection H as <-.
    exists [], p, ports; auto.
  - intro H; destruct (IH H) as (pre & port & post & -> & Hd & Hm & Hpre).
    exists (p :: pre), port, post; simpl; rewrite E; auto.
Qed.

(** X13. Auto-detection takes the first port, in the order of enumeration, whose
    description matches, announces it and returns its device; later matches
    are not looked at.  With no match it prints nothing and returns
    [None].  A device it returns is always that of an enumerated port
    that matches and that no match precedes. *)
Theorem find_esp32_port_takes_the_first_match :
  (forall ports,
      forallb (fun p => negb (describes_esp32 unicode_lower p)) ports = true ->
      find_esp32_port unicode_lower ports = ([], None))
  /\ (forall pre port post,
         forallb (fun p => negb (describes_esp32 unicode_lower p)) pre
         = true ->
         describes_esp32 unicode_lower port = true ->
         find_esp32_port unicode_lower (pre ++ port :: post)
         = ([Print (msg_detected (device port))], Some (device port)))
  /\ (forall ports dev,
         snd (find_esp32_port unicode_lower ports) = Some dev ->
         exists pre port post,
           ports = pre ++ port :: post /\ device port = dev
           /\ describes_esp32 unicode_lower port = true
           /\ forallb (fun p => negb (describes_esp32 unicode_lower p)) pre
              = true).
Proof.
  split; [exact find_no_match | split; [|exact find_sound]].
  intros pre port post; apply find_first_match.
Qed.

Lemma find_prints (ports : list port_info) :
  forallb is_print (fst (find_esp32_port unicode_lower ports)) = true.
Proof.
  induction ports as [|p ports IH]; simpl; [reflexivity|].
  destruct (describes_esp32 unicode_lower p); [reflexivity | exact IH].
Qed.

Lemma list_prints (ports : list port_info) :
  forallb is_print (fst (list_serial_ports ports)) = true.
Proof.
  destruct ports as [|p ports]; [reflexivity|].
  unfold list_serial_ports; cbn [fst forallb is_print andb].
  induction (p :: ports) as [|q l IH]; simpl; auto.
Qed.

Lemma prints_open_nothing (t : list effect) :
  forallb is_print t = true -> ~ In SerialOpen t.
Proof.
  intros H Hin; rewrite forallb_forall in H.
  specialize (H _ Hin); discriminate H.
Qed.

Lemma final_preceded (t : list effect) (o : outcome (list effect)) :
  final (preceded t o) = t ++ final o.
Proof. destruct o; reflexivity. Qed.

Lemma log_data_announces (port output_file : str) (baud : Z)
    (ser_result file_result : open_result) (evs : list event) :
  In SerialOpen
    (final (log_data port output_file baud ser_result file_result evs)) ->
  ser_result = Opened
  /\ In (Print (msg_connected port baud))
       (final (log_data port output_file baud ser_result file_result evs)).
Proof.
  destruct ser_result as [|e1].
  - intros _; split; [reflexivity|].
    destruct file_result as [|e2]; [|simpl; auto].
    rewrite log_data_opened.
    destruct (log_loop_extends (start (startup port output_file baud)) evs)
      as [es ->].
    apply in_or_app; left; simpl; auto.
  - simpl; intros [H|[]]; discriminate H.
Qed.

(** X14. [main] reaches the opening of the serial port only when it is not
    asked for the list and a port is named, never the empty name: it then
    is a call of [log_data] with that port, the detected device under
    [--auto] and the port argument otherwise, with the output file and the
    baud rate of the arguments, after what detection printed; and the
    [Connected to] line names that port and that rate.  Listing the ports,
    failing to detect one, or being given none leaves port and file
    alone. *)
Theorem main_opens_only_a_named_port (args : arguments)
    (scan1 scan2 : list port_info) (ser_result file_result : open_result)
    (evs : list event) :
  In SerialOpen
    (final (main unicode_lower args scan1 scan2 ser_result file_result evs))
  ->
  arg_list args = false
  /\ ser_result = Opened
  /\ exists dev,
      dev <> []
      /\ (if arg_auto args
          then snd (find_esp32_port unicode_lower scan1) = Some dev
          else arg_port args = Some dev)
      /\ main unicode_lower args scan1 scan2 ser_result file_result evs
         = preceded
             (if arg_auto args
              then fst (find_esp32_port unicode_lower scan1)
              else [])
             (log_data dev (arg_output args) (arg_baud args)
                ser_result file_result evs)
      /\ In (Print (CHECK :: lit " Connected to " ++ dev ++ lit " at "
                    ++ str_of_int (arg_baud args) ++ lit " baud"))
           (final (main unicode_lower args scan1 scan2 ser_result
                     file_result evs)).
Proof.
  unfold main; destruct (arg_list args).
  { intro H; apply prints_open_nothing in H; [tauto | apply list_prints]. }
  destruct (arg_auto args).
  - pose proof (find_prints scan1) as Ht.
    destruct (find_esp32_port unicode_lower scan1) as [t port].
    cbn [fst snd] in *; cbv beta match; destruct port as [[|c dev]|];
      try (cbn [final]; intro H; apply prints_open_nothing in H; [tauto|];
           rewrite forallb_app, Ht; cbn [forallb is_print andb];
           apply list_prints).
    rewrite final_preceded; intro H; apply in_app_or in H.
    destruct H as [H|H]; [apply prints_open_nothing in H; tauto|].
    apply log_data_announces in H; destruct H as [-> H].
    split; [reflexivity | split; [reflexivity|]].
    exists (c :: dev).
    split; [discriminate | split; [reflexivity | split; [reflexivity|]]].
    apply in_or_app; right; exact H.
  - destruct (arg_port args) as [[|c dev]|];
      try (destruct (list_serial_ports scan1) as [t ports] eqn:E;
           pose proof (list_prints scan1) as Ht; rewrite E in Ht;
           cbn [fst final] in *;
           intros [H|[H|H]]; try discriminate H;
           apply prints_open_nothing in H; [tauto|];
           rewrite forallb_app, Ht; destruct ports; reflexivity).
    intro H; apply log_data_announces in H; destruct H as [-> H].
    split; [reflexivity | split; [reflexivity|]].
    exists (c :: dev).
    split; [discriminate | split; [reflexivity | split; [|exact H]]].
    now destruct (log_data _ _ _ _ _ _).
Qed.

(** X15. Every path through [main] keeps the discipline of the handles, and a
    [main] that has returned holds neither the port nor the file open, on
    whatever path it went. *)
Theorem main_keeps_handle_discipline (args : arguments)
    (scan1 scan2 : list port_info) (ser_result file_result : open_result)
    (evs : list event) :
  exists r,
    follow_all untouched
      (final (main unicode_lower args scan1 scan2 ser_result file_result
                evs))
    = Some r
    /\ match main unicode_lower args scan1 scan2 ser_result file_result
               evs with
       | Returned _ =>
         is_open (ser_handle r) = false /\ is_open (file_handle r) = false
       | Polling _ =>
         is_open (ser_handle r) = true /\ is_open (file_handle r) = true
       end.
Proof.
  unfold main; destruct (arg_list args).
  { exists untouched; split; [|now split].
    apply follow_all_prints, list_prints. }
  destruct (arg_auto args).
  - pose proof (find_prints scan1) as Ht.
    destruct (find_esp32_port unicode_lower scan1) as [t port].
    cbn [fst] in Ht; cbv beta match.
    assert (Hnone : exists r,
               follow_all untouched
                 (final (Returned
                           (t ++ Print msg_no_detect
                              :: fst (list_serial_ports scan2))))
               = Some r
               /\ is_open (ser_handle r) = false
               /\ is_open (file_handle r) = false).
    { exists untouched; split; [|now split].
      apply follow_all_prints; cbn [final].
      rewrite forallb_app, Ht; cbn [forallb is_print andb].
      apply list_prints. }
    destruct port as [[|c dev]|]; try exact Hnone.
    destruct (log_data_follow (c :: dev) (arg_output args) (arg_baud args)
                ser_result file_result evs) as (r & Hr & Hm & _).
    exists r; rewrite final_preceded, follow_all_app,
                (follow_all_prints _ _ Ht); split; [exact Hr|].
    destruct (log_data _ _ _ _ _ evs); exact Hm.
  - destruct (arg_port args) as [[|c dev]|];
      try (destruct (list_serial_ports scan1) as [t ports] eqn:E;
           pose proof (list_prints scan1) as Ht; rewrite E in Ht;
           cbn [fst final] in *;
           exists untouched; split; [|now split];
           apply follow_all_prints; cbn [forallb is_print andb];
           rewrite forallb_app, Ht; destruct ports; reflexivity).
    destruct (log_data_follow (c :: dev) (arg_output args) (arg_baud args)
                ser_result file_result evs) as (r & Hr & Hm & _).
    exists r; split; [exact Hr | exact Hm].
Qed.

End DiscoveryFacts.

End Logger.

(** ** Concrete runs *)

Example decode_ascii :
  utf8_decode Strict [x31; x2c; x32; x0a] = Some (lit "1,2" ++ [LF]).
Proof. reflexivity. Qed.

Example decode_euro :
  utf8_decode Strict [xe2; x82; xac] = Some [0x20AC].
Proof. reflexivity. Qed.

Example decode_bad_start :
  utf8_decode Strict [x31; xff; x0a] = None
  /\ utf8_decode Replace [x31; xff; x0a] = Some [49; REPLACEMENT; LF].
Proof. split; reflexivity. Qed.

Example decode_truncated :
  utf8_decode Replace [xe2; x82; x0a] = Some [REPLACEMENT; LF]
  /\ utf8_decode Replace [xf0; x9f; x98] = Some [REPLACEMENT]
  /\ utf8_decode Replace [xc0; x8a] = Some [REPLACEMENT; REPLACEMENT]
  /\ utf8_decode Replace [xed; xa0; x80]
     = Some [REPLACEMENT; REPLACEMENT; REPLACEMENT].
Proof. repeat split; reflexivity. Qed.

Example strip_example :
  strip (lit "  12,3 4" ++ [13; LF]) = lit "12,3 4".
Proof. reflexivity. Qed.

Example decimal_examples :
  str_of_int 0 = lit "0" /\ str_of_int 115200 = lit "115200"
  /\ str_of_int (-7) = lit "-7" /\ format_4d 12 = lit "  12"
  /\ format_4d 12345 = lit "12345" /\ zero_padded 6 4321 = lit "004321".
Proof. repeat split; reflexivity. Qed.

Example iso_millis_sample :
  iso_millis sample_now = lit "2026-11-04 09:05:07.123"
  /\ timestamp_of sample_now = lit "2026-11-04 09:05:07.123".
Proof. split; reflexivity. Qed.

(** A line that starts with [-] is a data line whatever follows. *)
Example minus_is_data (digit : Z -> bool) :
  is_data_line digit (sent "-abc") = true
  /\ is_data_line digit (sent "   7") = true
  /\ is_data_line digit (sent "x7") = false.
Proof. repeat split; reflexivity. Qed.

(** The scenario of the specification: header, data, comment, unknown. *)
Example scenario (digit : Z -> bool) :
  let tr := final (log_data digit sample_port sample_file 115200
                     Opened Opened
                     [Readline sample_header sample_now;
                      Readline sample_data sample_now;
                      Readline sample_comment sample_now;
                      Readline sample_unknown sample_now]) in
  file_writes tr
  = [lit "real_time,timestamp,level,temp" ++ [LF];
     lit "2026-11-04 09:05:07.123,123,45.6,22.1" ++ [LF]]
  /\ skipn 4 (console tr)
     = [lit "Header: real_time,timestamp,level,temp";
        lit "[   1] 2026-11-04 09:05:07.123 | 123,45.6,22.1";
        lit "#debug";
        lit "? xyz"].
Proof. split; reflexivity. Qed.

Lemma C1_witness :
  (forall digit, is_data_line digit sample_data = true)
  /\ (forall digit st,
         let record := timestamp_of sample_now ++ lit ","
                       ++ trimmed sample_data ++ [LF] in
         file_writes (trace (process_line digit st sample_now sample_data))
         = file_writes (trace st) ++ [record]
         /\ payload record = trimmed sample_data).
Proof.
  split; [intro; reflexivity|].
  intros digit st.
  exact (C1_data_line_round_trip digit st sample_now sample_data eq_refl).
Defined.


(** C3.  The code at the failing input [1,2\xff\n].  The bytes are not
    well-formed UTF-8: strict decoding raises.  The loop decodes them with
    [errors='replace'], which gives the text [1,2] and U+FFFD, so the
    handler that warns and skips is not entered: the line is taken for a
    data line, its record is handed to [csv_file.write] and, the write done,
    the counter goes from 0 to 1 and the console shows the data line.  The
    decode warning is not printed. *)
Theorem C3_garbled_line_is_not_skipped :
  well_formed sample_garbled = false
  /\ utf8_decode Strict sample_garbled = None
  /\ utf8_decode Replace sample_garbled
     = Some (lit "1,2" ++ [REPLACEMENT; LF])
  /\ (forall digit, is_data_line digit sample_garbled = true)
  /\ (forall digit,
         process_line digit (start []) sample_now sample_garbled
         = {| header_written := false;
              line_count := 1;
              trace := [FileWrite (lit "2026-11-04 09:05:07.123,1,2"
                                   ++ [REPLACEMENT; LF]);
                        Print (lit "[   1] 2026-11-04 09:05:07.123 | 1,2"
                               ++ [REPLACEMENT])] |})
  /\ (forall digit,
         ~ In (Print msg_decode_error)
             (trace (process_line digit (start []) sample_now
                       sample_garbled))).
Proof.
  repeat split; try reflexivity.
  intros digit [H|[H|[]]]; discriminate H.
Qed.

Lemma C5_witness :
  trimmed sample_unknown <> []
  /\ (forall digit st,
         process_line digit st sample_now sample_unknown
         = emit st [Print (lit "? xyz")]).
Proof.
  assert (Hne : trimmed sample_unknown <> []) by discriminate.
  split; [exact Hne|].
  intros digit st.
  pose proof (C5_classes_and_console_only_lines digit st sample_now
                sample_unknown Hne) as H.
  exact (proj1 (proj2 (proj2 (proj2 (proj2 (proj2 H))))) eq_refl).
Defined.

Lemma C6_witness :
  no_exit [Readline sample_data sample_now] = true
  /\ is_exit KeyboardInterrupt = true
  /\ (forall digit,
         log_data digit sample_port sample_file 115200 Opened Opened
           ([Readline sample_data sample_now] ++ KeyboardInterrupt :: [])
         = Returned
             (trace (final (log_loop digit
                              (start (startup sample_port sample_file
                                        115200))
                              [Readline sample_data sample_now]))
              ++ [Print (LF :: LF :: CHECK
                         :: lit " Stopped logging. Total lines: 1");
                  FileClose; SerialClose;
                  Print (CHECK :: lit " Files closed")])).
Proof.
  split; [reflexivity | split; [reflexivity|]].
  intro digit.
  exact (proj1 (C6_cleanup_exactly_once digit sample_port sample_file 115200
                  [Readline sample_data sample_now] [] KeyboardInterrupt
                  eq_refl eq_refl)).
Defined.

(** C8 fails as stated: when the data line comes before the header line,
    the first record of the file is the data record and the header record
    is the second. *)
Lemma C8_counterexample :
  (forall digit,
      file_writes
        (final (log_data digit sample_port sample_file 115200 Opened Opened
                  [Readline sample_data sample_now;
                   Readline sample_header sample_now]))
      = [lit "2026-11-04 09:05:07.123,123,45.6,22.1" ++ [LF];
         lit "real_time,timestamp,level,temp" ++ [LF]])
  /\ is_header_record
       (lit "2026-11-04 09:05:07.123,123,45.6,22.1" ++ [LF]) = false.
Proof. split; [intro digit; reflexivity | reflexivity]. Qed.

Lemma C8_witness :
  (forall digit,
      forallb (is_quiet digit)
        [NoInput; Readline sample_comment sample_now] = true)
  /\ (forall digit,
         is_header_line digit sample_header
         || is_data_line digit sample_header = true)
  /\ (forall digit,
         exists rest,
           file_writes
             (final (log_data digit sample_port sample_file 115200
                       Opened Opened
                       ([NoInput; Readline sample_comment sample_now]
                        ++ Readline sample_header sample_now
                           :: [Readline sample_data sample_now])))
           = (lit "real_time," ++ trimmed sample_header ++ [LF]) :: rest).
Proof.
  split; [intro; reflexivity | split; [intro; reflexivity|]].
  intro digit.
  exact (proj1 (C8_first_record_of_a_run digit sample_port sample_file
                  115200 [NoInput; Readline sample_comment sample_now]
                  [Readline sample_data sample_now] sample_header sample_now
                  eq_refl eq_refl)).
Defined.

(** C9 fails as stated: the counter of the first data line is printed as
    three spaces and [1], not as [0001]. *)
Lemma C9_counterexample :
  (forall digit,
      console (trace (process_line digit (start []) sample_now sample_data))
      = [lit "[   1] 2026-11-04 09:05:07.123 | 123,45.6,22.1"])
  /\ format_4d 1 = lit "   1"
  /\ format_4d 1 <> lit "0001".
Proof.
  split; [intro digit; reflexivity | split; [reflexivity | discriminate]].
Qed.

Lemma sample_now_valid : valid_datetime sample_now.
Proof. unfold valid_datetime; simpl; lia. Qed.

Lemma C9_witness :
  valid_datetime sample_now
  /\ (forall digit, is_data_line digit sample_data = true)
  /\ (forall digit st,
         timestamp_of sample_now = iso_millis sample_now
         /\ length (iso_millis sample_now) = 23%nat
         /\ trace (process_line digit st sample_now sample_data)
            = trace st
              ++ [FileWrite (iso_millis sample_now ++ lit ","
                             ++ trimmed sample_data ++ [LF]);
                  Print (lit "["
                         ++ repeat 32
                              (4 - length (str_of_int (line_count st + 1)))
                         ++ str_of_int (line_count st + 1)
                         ++ lit "] " ++ iso_millis sample_now ++ lit " | "
                         ++ trimmed sample_data)]).
Proof.
  split; [exact sample_now_valid | split; [intro; reflexivity|]].
  intros digit st.
  exact (C9_timestamp_and_console_line digit st sample_now sample_data
           sample_now_valid eq_refl).
Defined.

Lemma C10_witness :
  forallb event_shaped
    [Readline sample_header sample_now; Readline sample_data sample_now;
     KeyboardInterrupt] = true
  /\ (forall digit,
         Forall one_line
           (file_writes
              (final (log_data digit sample_port sample_file 115200
                        Opened Opened
                        [Readline sample_header sample_now;
                         Readline sample_data sample_now;
                         KeyboardInterrupt])))).
Proof.
  split; [reflexivity|].
  intro digit.
  exact (C10_one_record_per_line digit sample_port sample_file 115200
           Opened Opened
           [Readline sample_header sample_now;
            Readline sample_data sample_now; KeyboardInterrupt] eq_refl).
Defined.

Lemma sample_later_valid : valid_datetime sample_later.
Proof. unfold valid_datetime; simpl; lia. Qed.

Lemma timestamps_sort_like_the_clock_witness :
  valid_datetime sample_now
  /\ valid_datetime sample_later
  /\ lex_compare (timestamp_of sample_now) (timestamp_of sample_later)
     = lex_compare (millis_key sample_now) (millis_key sample_later).
Proof.
  split; [exact sample_now_valid | split; [exact sample_later_valid|]].
  exact (timestamps_sort_like_the_clock sample_now sample_later
           sample_now_valid sample_later_valid).
Defined.

Lemma ascii_line_is_taken_byte_for_byte_witness :
  forallb (fun b => byte_val b <? 0x80) sample_data = true
  /\ trimmed sample_data = strip (map byte_val sample_data)
  /\ well_formed sample_data = true.
Proof.
  split; [reflexivity|].
  exact (ascii_line_is_taken_byte_for_byte sample_data eq_refl).
Defined.

Lemma blank_line_changes_nothing_witness :
  forallb isspace (decoded sample_blank) = true
  /\ (forall digit st, process_line digit st sample_now sample_blank = st).
Proof.
  split; [reflexivity|].
  intros digit st.
  exact (proj2 (blank_line_changes_nothing digit st sample_now sample_blank)
           eq_refl).
Defined.

Lemma counter_field_width_witness :
  0 <= 12
  /\ (exists k, format_4d 12 = repeat 32 k ++ decimal 12)
  /\ value_of (decimal 12) = 12
  /\ (12 < 10000 -> length (format_4d 12) = 4%nat)
  /\ (10000 <= 12 ->
      format_4d 12 = decimal 12 /\ (4 < length (format_4d 12))%nat).
Proof.
  assert (H : 0 <= 12) by lia.
  split; [exact H | exact (counter_field_width 12 H)].
Defined.

Lemma keyword_in_any_case_is_detected_witness :
  forallb is_ascii
    (lit "Silicon Labs " ++ lit "CP210" ++ lit "x USB to UART Bridge")
  = true
  /\ In (map ascii_lower (lit "CP210")) keywords
  /\ (forall lower,
         describes_esp32 lower
           {| device := lit "COM3";
              description := lit "Silicon Labs " ++ lit "CP210"
                             ++ lit "x USB to UART Bridge" |} = true).
Proof.
  assert (Hk : In (map ascii_lower (lit "CP210")) keywords)
    by (left; reflexivity).
  split; [reflexivity | split; [exact Hk|]].
  intro lower.
  exact (keyword_in_any_case_is_detected lower (lit "COM3")
           (lit "Silicon Labs ") (lit "CP210")
           (lit "x USB to UART Bridge") eq_refl Hk).
Defined.

Lemma find_esp32_port_takes_the_first_match_witness :
  (forall lower,
      forallb (fun p => negb (describes_esp32 lower p)) [sample_onboard]
      = true)
  /\ (forall lower, describes_esp32 lower sample_bridge = true)
  /\ (forall lower,
         find_esp32_port lower
           ([sample_onboard] ++ sample_bridge :: [sample_clone])
         = ([Print (lit "Auto-detected ESP32 on: COM3")],
            Some (lit "COM3"))).
Proof.
  split; [intro; reflexivity | split; [intro; reflexivity|]].
  intro lower.
  exact (proj1 (proj2 (find_esp32_port_takes_the_first_match lower))
           [sample_onboard] sample_bridge [sample_clone] eq_refl eq_refl).
Defined.

Lemma main_opens_only_a_named_port_witness :
  (forall digit lower,
      In SerialOpen
        (final (main digit lower sample_args [] [] Opened Opened
                  [KeyboardInterrupt])))
  /\ (forall digit lower,
         main digit lower sample_args [] [] Opened Opened [KeyboardInterrupt]
         = preceded []
             (log_data digit (lit "COM3") sample_file 115200 Opened Opened
                [KeyboardInterrupt])
         /\ In (Print (CHECK :: lit " Connected to COM3 at 115200 baud"))
              (final (main digit lower sample_args [] [] Opened Opened
                        [KeyboardInterrupt]))).
Proof.
  assert (Hin : forall digit lower,
             In SerialOpen
               (final (main digit lower sample_args [] [] Opened Opened
                         [KeyboardInterrupt])))
    by (intros; left; reflexivity).
  split; [exact Hin|].
  intros digit lower.
  destruct (main_opens_only_a_named_port digit lower sample_args [] []
              Opened Opened [KeyboardInterrupt] (Hin digit lower))
    as (_ & _ & dev & _ & Hdev & Hcall & Hprint).
  injection Hdev as <-; split; [exact Hcall | exact Hprint].
Defined.

(** Auto-detection over the three sample ports logs from COM3. *)
Example auto_mode_run (digit : Z -> bool) (lower : str -> str) :
  main digit lower
    {| arg_port := None; arg_output := sample_file; arg_baud := 115200;
       arg_list := false; arg_auto := true |}
    [sample_onboard; sample_bridge; sample_clone] []
    Opened Opened [Readline sample_data sample_now; KeyboardInterrupt]
  = Returned
      ([Print (lit "Auto-detected ESP32 on: COM3")]
       ++ startup (lit "COM3") sample_file 115200
       ++ [FileWrite (lit "2026-11-04 09:05:07.123,123,45.6,22.1" ++ [LF]);
           Print (lit "[   1] 2026-11-04 09:05:07.123 | 123,45.6,22.1");
           Print (msg_stopped 1); FileClose; SerialClose;
           Print msg_closed]).
Proof. reflexivity. Qed.

(** Without a port the program lists what it finds and opens nothing. *)
Example no_port_run (digit : Z -> bool) (lower : str -> str) :
  main digit lower
    {| arg_port := None; arg_output := sample_file; arg_baud := 115200;
       arg_list := false; arg_auto := false |}
    [sample_onboard; sample_bridge] [] Opened Opened []
  = Returned
      [Print msg_need_port; Print msg_available;
       Print (LF :: lit "Available serial ports:");
       Print (lit "  COM1 - Communications Port");
       Print (lit "  COM3 - Silicon Labs CP210x USB to UART Bridge");
       Print (LF :: lit "Example: python csv_logger.py COM1 sensor_data.csv")].
Proof. reflexivity. Qed.
